(** * news-automation-system: the asynchronous news workflow

    A shallow embedding of [news_extraction_async.py], [llm_integrations.py],
    [notifications.py], [news_workflow.py] and the run set up by [main.py],
    followed by the properties of the pipeline that are settled against it.

    Python values are embedded as a small universe [PyVal]; dictionaries are
    finite maps with string keys. Everything outside the process (HTTP, the
    HTML parser, the chat-completion endpoint, SMTP, the process environment)
    is an oracle collected in the record [Env]; every theorem quantifies over
    it. Effects are threaded through an explicit [World]. *)

From Stdlib Require Import ZArith Ascii String Lia.
From stdpp Require Import base option list strings gmap pretty.

#[local] Set Warnings "-register-all".
#[local] Open Scope string_scope.

(* ===================================================================== *)
(** ** Python strings *)
(* ===================================================================== *)

Module PyStr.

(** [str.isspace] on the code points below 256. *)
Definition is_space (c : ascii) : bool :=
  let n := nat_of_ascii c in
  (((9 <=? n) && (n <=? 13)) || ((28 <=? n) && (n <=? 32))
   || (n =? 133) || (n =? 160))%nat.

(** [s.startswith(p)] *)
Definition startswith (p s : string) : bool := String.prefix p s.

(** [s[n:]] for [0 <= n] *)
Fixpoint drop (n : nat) (s : string) : string :=
  match n, s with
  | S k, String _ s' => drop k s'
  | _, _ => s
  end.

(** [s[:n]] for [0 <= n] *)
Fixpoint take (n : nat) (s : string) : string :=
  match n, s with
  | S k, String c s' => String c (take k s')
  | _, _ => EmptyString
  end.

(** [s.endswith(p)] *)
Definition endswith (p s : string) : bool :=
  (String.length p <=? String.length s)%nat
  && String.eqb (drop (String.length s - String.length p) s) p.

(** [sub in s] *)
Fixpoint contains (sub s : string) : bool :=
  match s with
  | EmptyString => String.prefix sub EmptyString
  | String _ s' => String.prefix sub s || contains sub s'
  end.

Fixpoint lstrip (s : string) : string :=
  match s with
  | String c s' => if is_space c then lstrip s' else s
  | EmptyString => EmptyString
  end.

Fixpoint rstrip (s : string) : string :=
  match s with
  | String c s' =>
      match rstrip s' with
      | EmptyString => if is_space c then EmptyString else String c EmptyString
      | r => String c r
      end
  | EmptyString => EmptyString
  end.

(** [s.strip()] *)
Definition strip (s : string) : string := rstrip (lstrip s).

(** [sep.join(l)] *)
Fixpoint join (sep : string) (l : list string) : string :=
  match l with
  | [] => EmptyString
  | [x] => x
  | x :: rest => x ++ sep ++ join sep rest
  end.

(** The scanning loop of [s.split(sep)] for a non-empty [sep]: [skip]
    counts the characters of a matched separator still to be consumed and
    [cur] is the piece being collected. *)
Fixpoint split_go (sep : string) (skip : nat) (cur : string) (s : string)
  : list string :=
  match s with
  | EmptyString => [cur]
  | String c s' =>
      match skip with
      | S k => split_go sep k cur s'
      | O =>
          if String.prefix sep s
          then cur :: split_go sep (String.length sep - 1) EmptyString s'
          else split_go sep 0 (cur ++ String c EmptyString) s'
      end
  end.

(** [s.split(sep)], [sep] a non-empty literal *)
Definition split (sep s : string) : list string := split_go sep 0 EmptyString s.

(** [s.replace(old, new)], [old] a non-empty literal: the pieces between
    the non-overlapping occurrences of [old], glued with [new]. *)
Definition replace (old new s : string) : string := join new (split old s).

(** The scanning loop of [s.split()]: [cur] is the word being collected. *)
Fixpoint words_go (cur : string) (s : string) : list string :=
  match s with
  | EmptyString => match cur with EmptyString => [] | _ => [cur] end
  | String c s' =>
      if is_space c
      then match cur with
           | EmptyString => words_go EmptyString s'
           | _ => cur :: words_go EmptyString s'
           end
      else words_go (cur ++ String c EmptyString) s'
  end.

(** [s.split()] *)
Definition words (s : string) : list string := words_go EmptyString s.

(** [not s] *)
Definition is_empty (s : string) : bool :=
  match s with EmptyString => true | _ => false end.

End PyStr.

(* ===================================================================== *)
(** ** Python values, exceptions *)
(* ===================================================================== *)

(** The values the program handles. A [dict] with string keys is a finite
    map; [Any] is [PyVal]. *)
Inductive PyVal :=
| VNone
| VBool (b : bool)
| VInt (z : Z)
| VStr (s : string)
| VList (l : list PyVal)
| VDict (d : gmap string PyVal).

Abbreviation Dict := (gmap string PyVal).

(** A raised exception; [exn_msg] is [str(e)]. *)
Inductive ExnKind :=
| AttributeError | TypeError | KeyError | IndexError | ExternalError.

Record Exn := mkExn { exn_kind : ExnKind; exn_msg : string }.

(** The outcome of an expression that may raise. *)
Inductive Res (A : Type) :=
| Ok (a : A)
| Raise (e : Exn).
Arguments Ok {A} a.
Arguments Raise {A} e.

Definition res_bind {A B} (m : Res A) (k : A -> Res B) : Res B :=
  match m with
  | Ok a => k a
  | Raise e => Raise e
  end.

Notation "x <- m ;; k" := (res_bind m (fun x => k))
  (at level 100, m at next level, right associativity).

(** Truth value of a value, as tested by [if v:] and [not v]. *)
Definition truthy (v : PyVal) : bool :=
  match v with
  | VNone => false
  | VBool b => b
  | VInt z => negb (Z.eqb z 0)
  | VStr s => negb (PyStr.is_empty s)
  | VList l => match l with [] => false | _ => true end
  | VDict d => negb (bool_decide (size d = 0))
  end.

(** [type(v).__name__], as the messages of the interpreter show it. *)
Definition type_name (v : PyVal) : string :=
  match v with
  | VNone => "NoneType"
  | VBool _ => "bool"
  | VInt _ => "int"
  | VStr _ => "str"
  | VList _ => "list"
  | VDict _ => "dict"
  end.

(** The message of the [AttributeError] raised by [v.attr]. *)
Definition no_attribute (v : PyVal) (attr : string) : Exn :=
  mkExn AttributeError
    ("'" ++ type_name v ++ "' object has no attribute '" ++ attr ++ "'").

(** The double quote, which some messages and the mail templates hold. *)
Definition dq : string := String (ascii_of_nat 34) EmptyString.

(** [d.get(k)] and [d.get(k, dflt)] on a dictionary. *)
Definition dict_get (d : Dict) (k : string) (dflt : PyVal) : PyVal :=
  default dflt (d !! k).

(** [d[k]] on a dictionary. *)
Definition dict_item (d : Dict) (k : string) : Res PyVal :=
  match d !! k with
  | Some v => Ok v
  | None => Raise (mkExn KeyError ("'" ++ k ++ "'"))
  end.

(** [v.get(k, dflt)] on any value: only dictionaries have [get]. *)
Definition py_get (v : PyVal) (k : string) (dflt : PyVal) : Res PyVal :=
  match v with
  | VDict d => Ok (dict_get d k dflt)
  | _ => Raise (no_attribute v "get")
  end.

(** [v[0]] on any value. *)
Definition py_first (v : PyVal) : Res PyVal :=
  match v with
  | VList (x :: _) => Ok x
  | VList [] => Raise (mkExn IndexError "list index out of range")
  | VStr (String c _) => Ok (VStr (String c EmptyString))
  | VStr EmptyString => Raise (mkExn IndexError "string index out of range")
  | VDict _ => Raise (mkExn KeyError "0")
  | _ => Raise (mkExn TypeError ("'" ++ type_name v ++ "' object is not subscriptable"))
  end.

(** [len(v)] *)
Definition py_len (v : PyVal) : Res nat :=
  match v with
  | VStr s => Ok (String.length s)
  | VList l => Ok (length l)
  | VDict d => Ok (size d)
  | _ => Raise (mkExn TypeError ("object of type '" ++ type_name v ++ "' has no len()"))
  end.

(** [x in v] for a string [x]. *)
Definition py_str_in (x : string) (v : PyVal) : Res bool :=
  match v with
  | VStr s => Ok (PyStr.contains x s)
  | VList l =>
      Ok (existsb (fun e => match e with VStr t => String.eqb x t | _ => false end) l)
  | VDict d => Ok (bool_decide (is_Some (d !! x)))
  | _ => Raise (mkExn TypeError ("argument of type '" ++ type_name v ++ "' is not iterable"))
  end.

(** [l[:n]] for an integer [n] of either sign. *)
Definition slice_to {A} (n : Z) (l : list A) : list A :=
  if (0 <=? n)%Z then take (Z.to_nat n) l
  else take (length l - Z.to_nat (- n)) l.

(* ===================================================================== *)
(** ** The outside world *)
(* ===================================================================== *)

(** One HTTP exchange of [session.get]: status 200 with its body, or
    anything else (another status, a timeout, a transport fault). *)
Inductive HttpResp :=
| Http200 (body : string)
| HttpFail.

(** What the program reads off a parsed page. *)
Record Soup := mkSoup {
  (** the [href] of each [soup.find_all('a', href=True)], in document order *)
  soup_hrefs : list string;
  (** [get_text()] of [soup.find('h1')], when there is one *)
  soup_h1 : option string;
  (** [soup.find('meta', property='og:title')], when there is one, with its
      [content] attribute, when it has one *)
  soup_og_title : option (option string);
  (** [get_text()] of each [p] left once the script, style, nav, header and
      footer elements are decomposed *)
  soup_paragraphs : list string
}.

(** The oracles. Those that stand for a request are indexed by the number
    of requests issued so far in the run, so that the same URL may answer
    differently each time. *)
Record Env := mkEnv {
  (** [session.get(url, headers=..., timeout=10)] *)
  http_get : nat -> string -> HttpResp;
  (** [BeautifulSoup(markup, 'html.parser')] *)
  bs4_parse : PyVal -> Res Soup;
  (** [str(v)] of a value that is not a string, [None] or a boolean *)
  py_repr : PyVal -> string;
  (** [int(os.getenv("MAX_ARTICLES_PER_SOURCE", "2"))] *)
  MAX_ARTICLES_PER_SOURCE : Z;
  (** [os.getenv("OPENROUTER_API_KEY")] *)
  OPENROUTER_API_KEY : option string;
  (** [os.getenv("OPENROUTER_MODEL", ...)] *)
  DEFAULT_MODEL : string;
  (** [requests.post], [raise_for_status] and [response.json()] for a model
      and a prompt *)
  llm_post : nat -> string -> string -> Res PyVal;
  (** [EMAIL_CONFIG['to_email']] *)
  EMAIL_RECEIVER : string;
  (** [EMAIL_CONFIG['subject_template'].format(date=...)] *)
  email_subject : Res string;
  (** [EMAIL_SMTP_PORT] *)
  EMAIL_SMTP_PORT : Z;
  (** the [smtplib.SMTP_SSL] exchange of [send_email]: [true] when it
      completes without an exception *)
  smtp_ssl_send : nat -> string -> string -> string -> bool;
  (** the [smtplib.SMTP] exchange with [starttls] *)
  smtp_tls_send : nat -> string -> string -> string -> bool
}.

(** The effects of a run: the requests issued, the graph nodes entered and
    the calls of the notifier with their argument, oldest first. *)
Record World := mkWorld {
  requests : nat;
  visited : list string;
  mailed : list (list PyVal)
}.

Definition world0 : World := mkWorld 0 [] [].

Definition tick (w : World) : World :=
  mkWorld (S (requests w)) (visited w) (mailed w).

Definition enter (node : string) (w : World) : World :=
  mkWorld (requests w) (visited w ++ [node]) (mailed w).

Definition record_mail (summaries : list PyVal) (w : World) : World :=
  mkWorld (requests w) (visited w) (mailed w ++ [summaries]).

(** [str(v)], as an f-string formats a value. *)
Definition py_str (env : Env) (v : PyVal) : string :=
  match v with
  | VStr s => s
  | VNone => "None"
  | VBool true => "True"
  | VBool false => "False"
  | _ => py_repr env v
  end.

(* ===================================================================== *)
(** ** news_extraction_async.py *)
(* ===================================================================== *)

(** The attempts of [fetch_with_retry]: [n] attempts are left. A status
    other than 200 and a fault both use up one attempt. *)
Fixpoint fetch_attempts (env : Env) (n : nat) (url : string) (w : World)
  : option string * World :=
  match n with
  | O => (None, w)
  | S k =>
      match http_get env (requests w) url with
      | Http200 body => (Some body, tick w)
      | HttpFail => fetch_attempts env k url (tick w)
      end
  end.

(** [fetch_with_retry(session, url, max_retries=3, headers)]. A [url] that
    is not a string makes [session.get] raise at every attempt, before any
    request is sent; the loop catches it and [None] is returned. *)
Definition fetch_with_retry (env : Env) (url : PyVal) (w : World)
  : option string * World :=
  match url with
  | VStr u => fetch_attempts env 3 u w
  | _ => (None, w)
  end.

(** The relative-to-absolute step of [extract_article_links]. *)
Definition resolve_href (base_url href : string) : string :=
  if PyStr.startswith "/" href then
    if PyStr.endswith "/" base_url then base_url ++ PyStr.drop 1 href
    else base_url ++ href
  else href.

(** The filter of [extract_article_links], with Python's precedence:
    [and] binds tighter than [or]. *)
Definition likely_article (href : string) : bool :=
  (PyStr.startswith "http" href && PyStr.contains "/article" href)
  || PyStr.contains "/news/" href
  || PyStr.contains "/story/" href.

(** [href in links] *)
Definition str_in_list (href : string) (links : list string) : bool :=
  existsb (String.eqb href) links.

(** The loop of [extract_article_links] over the anchors, [links] being the
    list built so far. *)
Fixpoint links_loop (base_url : string) (hrefs : list string) (links : list string)
  : list string :=
  match hrefs with
  | [] => links
  | a :: rest =>
      let href := resolve_href base_url a in
      if likely_article href then
        if negb (str_in_list href links) then links_loop base_url rest (links ++ [href])%list
        else links_loop base_url rest links
      else links_loop base_url rest links
  end.

Definition extract_article_links (soup : Soup) (base_url : string) : list string :=
  links_loop base_url (soup_hrefs soup) [].

(** [extract_title(soup)]: [None] is Python's [None]. A tag is true whether
    or not it has text. *)
Definition extract_title (soup : Soup) : option string :=
  match soup_h1 soup with
  | Some text => Some (PyStr.strip text)
  | None =>
      match soup_og_title soup with
      | Some content => Some (PyStr.strip (default EmptyString content))
      | None => None
      end
  end.

(** The dictionary appended by [fetch_articles]. *)
Definition new_article (link title article_html source_name : string) : Dict :=
  <["source" := VStr source_name]>
    (<["html" := VStr article_html]>
       (<["title" := VStr title]>
          (<["url" := VStr link]> ∅))).

(** The body of the inner [try] of [fetch_articles] for one link: the
    articles list after it. *)
Definition fetch_link (env : Env) (source_name link : string)
    (articles : list Dict) (w : World) : list Dict * World :=
  let '(article_html, w1) := fetch_with_retry env (VStr link) w in
  match article_html with
  | Some html =>
      if PyStr.is_empty html then (articles, w1)
      else
        match bs4_parse env (VStr html) with
        | Ok article_soup =>
            match extract_title article_soup with
            | Some title =>
                if PyStr.is_empty title then (articles, w1)
                else ((articles ++ [new_article link title html source_name])%list, w1)
            | None => (articles, w1)
            end
        | Raise _ => (articles, w1)
        end
  | None => (articles, w1)
  end.

(** [for i, link in enumerate(links[:max_articles_per_source])] *)
Fixpoint fetch_links (env : Env) (source_name : string) (links : list string)
    (articles : list Dict) (w : World) : list Dict * World :=
  match links with
  | [] => (articles, w)
  | link :: rest =>
      let '(articles1, w1) := fetch_link env source_name link articles w in
      fetch_links env source_name rest articles1 w1
  end.

(** [source_url.split('//')[1].split('/')[0].replace('www.', '')] on a
    string. *)
Definition source_name_of (source_url : string) : Res string :=
  match PyStr.split "//" source_url with
  | _ :: rest :: _ =>
      Ok (PyStr.replace "www." "" (hd EmptyString (PyStr.split "/" rest)))
  | _ => Raise (mkExn IndexError "list index out of range")
  end.

(** The body of the outer [try] of [fetch_articles] for one source. *)
Definition fetch_source (env : Env) (max_articles_per_source : Z)
    (source_url source_name : string) (articles : list Dict) (w : World)
  : list Dict * World :=
  let '(html, w1) := fetch_with_retry env (VStr source_url) w in
  match html with
  | Some h =>
      if PyStr.is_empty h then (articles, w1)
      else
        match bs4_parse env (VStr h) with
        | Ok soup =>
            let links := extract_article_links soup source_url in
            fetch_links env source_name (slice_to max_articles_per_source links)
              articles w1
        | Raise _ => (articles, w1)
        end
  | None => (articles, w1)
  end.

(** The loop of [fetch_articles] over the source URLs. The source name is
    computed outside the [try], so its exception leaves the function. *)
Fixpoint fetch_sources (env : Env) (max_articles_per_source : Z)
    (sources : list PyVal) (articles : list Dict) (w : World)
  : Res (list Dict) * World :=
  match sources with
  | [] => (Ok articles, w)
  | source_url :: rest =>
      match source_url with
      | VStr u =>
          match source_name_of u with
          | Ok source_name =>
              let '(articles1, w1) :=
                fetch_source env max_articles_per_source u source_name articles w in
              fetch_sources env max_articles_per_source rest articles1 w1
          | Raise e => (Raise e, w)
          end
      | _ => (Raise (no_attribute source_url "split"), w)
      end
  end.

Definition fetch_articles (env : Env) (sources : list PyVal)
    (max_articles_per_source : Z) (w : World) : Res (list Dict) * World :=
  fetch_sources env max_articles_per_source sources [] w.

(** The inner loop of [batch_process_sources]: the first source whose URL
    contains the article's source label gives the article its name. *)
Fixpoint rename_source (sources : list Dict) (article : Dict) : Res Dict :=
  match sources with
  | [] => Ok article
  | source :: rest =>
      label <- dict_item article "source" ;;
      url <- dict_item source "url" ;;
      hit <- match label with
             | VStr l => py_str_in l url
             | _ =>
                 Raise (mkExn TypeError
                          ("'in <string>' requires string as left operand, not "
                           ++ type_name label))
             end ;;
      if (hit : bool) then
        name <- dict_item source "name" ;;
        Ok (<["source" := name]> article)
      else rename_source rest article
  end.

(** [for article in articles: ...] of [batch_process_sources] *)
Fixpoint rename_sources (sources : list Dict) (articles : list Dict)
  : Res (list Dict) :=
  match articles with
  | [] => Ok []
  | article :: rest =>
      a <- rename_source sources article ;;
      r <- rename_sources sources rest ;;
      Ok (a :: r)
  end.

(** [[source['url'] for source in sources]] *)
Fixpoint source_urls_of (sources : list Dict) : Res (list PyVal) :=
  match sources with
  | [] => Ok []
  | source :: rest =>
      u <- dict_item source "url" ;;
      r <- source_urls_of rest ;;
      Ok (u :: r)
  end.

Definition batch_process_sources (env : Env) (sources : list Dict)
    (max_per_source : Z) (w : World) : Res (list Dict) * World :=
  match source_urls_of sources with
  | Raise e => (Raise e, w)
  | Ok source_urls =>
      match fetch_articles env source_urls max_per_source w with
      | (Raise e, w1) => (Raise e, w1)
      | (Ok articles, w1) => (rename_sources sources articles, w1)
      end
  end.

(** The text computed by [extract_article_content] from the parsed page:
    the non-blank paragraph texts, stripped and joined by one space, with
    every run of white space collapsed. *)
Definition clean_content (soup : Soup) : string :=
  let content :=
    PyStr.join " "
      (List.filter (fun t => negb (PyStr.is_empty t))
         (map PyStr.strip (soup_paragraphs soup))) in
  PyStr.join " " (PyStr.words content).

(** The first step of [extract_article_content]: the markup to parse.
    [Ok None] stands for the early return on a failed fetch. The user agent
    drawn by [random.choice(USER_AGENTS)] goes with the request and is part
    of what the oracle answers to. *)
Definition obtain_html (env : Env) (article : Dict) (w : World)
  : Res (option PyVal) * World :=
  if negb (truthy (dict_get article "html" VNone)) then
    match dict_item article "url" with
    | Raise e => (Raise e, w)
    | Ok url =>
        let '(html, w1) := fetch_with_retry env url w in
        match html with
        | Some h => if PyStr.is_empty h then (Ok None, w1) else (Ok (Some (VStr h)), w1)
        | None => (Ok None, w1)
        end
    end
  else (h <- dict_item article "html" ;; Ok (Some h), w).

(** [extract_article_content(session, article)]. On a value that is not a
    dictionary nothing is caught: without [copy] the first statement raises;
    a list has [copy] but no [get], and the handler's own assignment
    [result['error'] = ...] then raises. *)
Definition extract_article_content (env : Env) (article : PyVal) (w : World)
  : Res Dict * World :=
  match article with
  | VDict a =>
      let result := a in
      match obtain_html env a w with
      | (Raise e, w1) =>
          (Ok (<["error" := VStr ("Error extracting content: " ++ exn_msg e)]> result), w1)
      | (Ok None, w1) =>
          (Ok (<["error" := VStr "Failed to fetch article content"]> result), w1)
      | (Ok (Some html), w1) =>
          match bs4_parse env html with
          | Raise e =>
              (Ok (<["error" := VStr ("Error extracting content: " ++ exn_msg e)]> result), w1)
          | Ok soup =>
              let content := clean_content soup in
              if PyStr.is_empty content || (String.length content <? 50)%nat then
                (Ok (<["error" := VStr "Insufficient content extracted"]> result), w1)
              else (Ok (<["content" := VStr content]> result), w1)
          end
      end
  | VList _ =>
      (Raise (mkExn TypeError "list indices must be integers or slices, not str"), w)
  | _ => (Raise (no_attribute article "copy"), w)
  end.

(** [asyncio.gather] with [return_exceptions=True]: every task runs to
    its result or its exception. The tasks are taken in list order; which
    request of the run each one issues is left to the oracle. *)
Fixpoint gather (env : Env) (articles : list PyVal) (w : World)
  : list (Res Dict) * World :=
  match articles with
  | [] => ([], w)
  | article :: rest =>
      let '(r, w1) := extract_article_content env article w in
      let '(rs, w2) := gather env rest w1 in
      (r :: rs, w2)
  end.

(** [for result in results: ...] of [batch_process_articles] *)
Fixpoint keep_results (results : list (Res Dict)) (processed_articles : list Dict)
  : list Dict :=
  match results with
  | [] => processed_articles
  | Raise _ :: rest => keep_results rest processed_articles
  | Ok result :: rest => keep_results rest (processed_articles ++ [result])%list
  end.

Definition batch_process_articles (env : Env) (articles : list PyVal) (w : World)
  : list Dict * World :=
  let '(results, w1) := gather env articles w in
  (keep_results results [], w1).

(* ===================================================================== *)
(** ** llm_integrations.py *)
(* ===================================================================== *)

Definition max_chars : nat := 4000.

(** [if len(content) > max_chars: content = content[:max_chars] + "..."] *)
Definition truncate_content (content : PyVal) : Res PyVal :=
  n <- py_len content ;;
  if (max_chars <? n)%nat then
    match content with
    | VStr s => Ok (VStr (PyStr.take max_chars s ++ "..."))
    | VList _ =>
        Raise (mkExn TypeError
                 ("can only concatenate list (not " ++ dq ++ "str" ++ dq ++ ") to list"))
    | _ => Raise (mkExn TypeError "unhashable type: 'slice'")
    end
  else Ok content.

(** The f-string of [get_llm_summary]. *)
Definition build_prompt (env : Env) (title source content : PyVal) : string :=
  "
    Article Title: " ++ py_str env title ++ "
    Source: " ++ py_str env source ++ "
    
    Content:
    " ++ py_str env content ++ "
    
    Please provide a concise summary of this article in 3-5 sentences. 
    Extract the most important information, key facts, and main points.
    ".

(** [result.get('choices', [{}])[0].get('message', {}).get('content', '')] *)
Definition first_choice_content (result : PyVal) : Res PyVal :=
  choices <- py_get result "choices" (VList [VDict ∅]) ;;
  choice <- py_first choices ;;
  message <- py_get choice "message" (VDict ∅) ;;
  py_get message "content" (VStr "").

(** [not OPENROUTER_API_KEY] *)
Definition api_key_missing (env : Env) : bool :=
  match OPENROUTER_API_KEY env with
  | Some k => PyStr.is_empty k
  | None => true
  end.

(** [get_llm_summary(article, model)]. The length test and the truncation
    stand before the [try]. *)
Definition get_llm_summary (env : Env) (article : Dict) (model : option string)
    (w : World) : Res PyVal * World :=
  if api_key_missing env then
    (Ok (VStr "Summary not available - OpenRouter API key not configured."), w)
  else if negb (truthy (dict_get article "content" VNone)) then
    (Ok (VStr "No content available for summarization."), w)
  else
    let title := dict_get article "title" (VStr "Untitled Article") in
    let source := dict_get article "source" (VStr "Unknown Source") in
    match (content <- dict_item article "content" ;; truncate_content content) with
    | Raise e => (Raise e, w)
    | Ok content =>
        let prompt := build_prompt env title source content in
        let model_id :=
          match model with
          | Some m => if PyStr.is_empty m then DEFAULT_MODEL env else m
          | None => DEFAULT_MODEL env
          end in
        match (result <- llm_post env (requests w) model_id prompt ;;
               first_choice_content result) with
        | Ok summary =>
            if negb (truthy summary) then
              (Ok (VStr "Summary generation failed - empty response."), tick w)
            else (Ok summary, tick w)
        | Raise e =>
            (Ok (VStr ("Summary generation failed: " ++ exn_msg e)), tick w)
        end
    end.

(* ===================================================================== *)
(** ** notifications.py *)
(* ===================================================================== *)

Definition email_head : string :=
  "
    <html>
    <head>
        <style>
            .article {
                margin-bottom: 20px;
                padding: 10px;
                border-bottom: 1px solid #ccc;
            }
            .title {
                font-weight: bold;
                font-size: 16px;
                color: #222;
            }
            .source {
                color: #666;
                font-style: italic;
            }
            .summary {
                margin-top: 8px;
                line-height: 1.4;
            }
        </style>
    </head>
    <body>
        <h2>Today's News Summaries</h2>
        <p>Here are the news stories from today:</p>
    ".

Definition email_tail : string :=
  "
    </body>
    </html>
    ".

(** The block added to the body for one article. *)
Definition email_block (env : Env) (article : PyVal) : Res string :=
  title <- py_get article "title" (VStr "Untitled") ;;
  source <- py_get article "source_name" (VStr "Unknown") ;;
  summary <- py_get article "summary" (VStr "No summary available") ;;
  url <- py_get article "url" (VStr "#") ;;
  Ok ("
        <div class=" ++ dq ++ "article" ++ dq ++ ">
            <div class=" ++ dq ++ "title" ++ dq ++ ">" ++ py_str env title ++ "</div>
            <div class=" ++ dq ++ "source" ++ dq ++ ">Source: " ++ py_str env source ++ "</div>
            <div class=" ++ dq ++ "summary" ++ dq ++ ">" ++ py_str env summary ++ "</div>
            <a href=" ++ dq ++ py_str env url ++ dq ++ " target=" ++ dq ++ "_blank" ++ dq ++ ">Read more</a>
        </div>
        ").

(** [for article in summaries: body += ...] *)
Fixpoint email_blocks (env : Env) (summaries : list PyVal) (body : string)
  : Res string :=
  match summaries with
  | [] => Ok body
  | article :: rest =>
      block <- email_block env article ;;
      email_blocks env rest (body ++ block)
  end.

Definition format_email_body (env : Env) (summaries : list PyVal) : Res string :=
  body <- email_blocks env summaries email_head ;;
  Ok (body ++ email_tail).

(** [send_email(recipient, subject, body)]: [True] unless the exchange
    raises. *)
Definition send_email (env : Env) (recipient subject body : string) (w : World)
  : bool * World :=
  if (EMAIL_SMTP_PORT env =? 465)%Z then
    (smtp_ssl_send env (requests w) recipient subject body, tick w)
  else (smtp_tls_send env (requests w) recipient subject body, tick w).

(** [send_email_summary(summaries, config)], recorded in the world with its
    argument. *)
Definition send_email_summary (env : Env) (summaries : list PyVal) (w : World)
  : bool * World :=
  let w0 := record_mail summaries w in
  let recipient := EMAIL_RECEIVER env in
  match (subject <- email_subject env ;;
         body <- format_email_body env summaries ;;
         Ok (subject, body)) with
  | Ok (subject, body) => send_email env recipient subject body w0
  | Raise _ => (false, w0)
  end.

(* ===================================================================== *)
(** ** news_workflow.py *)
(* ===================================================================== *)

(** [NewsWorkflowState] *)
Record NewsWorkflowState := mkState {
  sources : list PyVal;
  articles : list PyVal;
  summaries : list PyVal;
  email_sent : bool;
  error : string
}.

Definition set_error (state : NewsWorkflowState) (e : string) : NewsWorkflowState :=
  mkState (sources state) (articles state) (summaries state) (email_sent state) e.

Definition set_articles (state : NewsWorkflowState) (l : list PyVal) : NewsWorkflowState :=
  mkState (sources state) l (summaries state) (email_sent state) (error state).

Definition set_summaries (state : NewsWorkflowState) (l : list PyVal) : NewsWorkflowState :=
  mkState (sources state) (articles state) l (email_sent state) (error state).

Definition set_email_sent (state : NewsWorkflowState) (b : bool) : NewsWorkflowState :=
  mkState (sources state) (articles state) (summaries state) b (error state).

(** How the conversion loop of [fetch_articles_async] ends: with the list
    built, at an entry of the wrong form, or in an exception. *)
Inductive Normalized :=
| SourcesOk (sources_list : list Dict)
| SourceInvalid (source : PyVal)
| SourceRaise (e : Exn).

(** The dictionary built for a source given as a string. *)
Definition named_source (domain source : string) : Dict :=
  <["url" := VStr source]> (<["name" := VStr domain]> ∅).

(** [for source in state["sources"]: ...] of [fetch_articles_async] *)
Fixpoint normalize_sources (sources : list PyVal) (sources_list : list Dict)
  : Normalized :=
  match sources with
  | [] => SourcesOk sources_list
  | source :: rest =>
      match source with
      | VStr s =>
          match PyStr.split "//" s with
          | _ :: after :: _ =>
              let domain := hd EmptyString (PyStr.split "/" after) in
              let domain :=
                if PyStr.startswith "www." domain then PyStr.drop 4 domain
                else domain in
              normalize_sources rest (sources_list ++ [named_source domain s])%list
          | _ => SourceRaise (mkExn IndexError "list index out of range")
          end
      | VDict d =>
          if bool_decide (is_Some (d !! "url"))
          then normalize_sources rest (sources_list ++ [d])%list
          else SourceInvalid source
      | _ => SourceInvalid source
      end
  end.

Definition no_sources_msg : string := "No sources provided.".
Definition invalid_source_msg (env : Env) (source : PyVal) : string :=
  "Invalid source format: " ++ py_str env source.
Definition no_articles_msg : string :=
  "No articles found. Check source configurations.".
Definition fetch_error_msg (e : Exn) : string :=
  "Error fetching articles: " ++ exn_msg e.

(** Node [fetch_articles] *)
Definition fetch_articles_async (env : Env) (state : NewsWorkflowState) (w : World)
  : NewsWorkflowState * World :=
  match sources state with
  | [] => (set_error state no_sources_msg, w)
  | _ =>
      match normalize_sources (sources state) [] with
      | SourceInvalid source => (set_error state (invalid_source_msg env source), w)
      | SourceRaise e => (set_error state (fetch_error_msg e), w)
      | SourcesOk sources_list =>
          match batch_process_sources env sources_list (MAX_ARTICLES_PER_SOURCE env) w with
          | (Raise e, w1) => (set_error state (fetch_error_msg e), w1)
          | (Ok found, w1) =>
              let state1 := set_articles state (map VDict found) in
              match found with
              | [] => (set_error state1 no_articles_msg, w1)
              | _ => (state1, w1)
              end
          end
      end
  end.

(** Node [extract_content]. [batch_process_articles] catches the fault of
    every task, so the handler of this node has nothing to catch. *)
Definition extract_content_async (env : Env) (state : NewsWorkflowState) (w : World)
  : NewsWorkflowState * World :=
  match articles state with
  | [] =>
      if PyStr.is_empty (error state)
      then (set_error state "No articles to process", w)
      else (state, w)
  | _ =>
      let '(articles_with_content, w1) := batch_process_articles env (articles state) w in
      (set_articles state (map VDict articles_with_content), w1)
  end.

(** The loop of [summarize_articles_async]. An article is updated in
    place, so the first component is what [state["articles"]] holds when the
    loop ends or raises; the second is the [summaries] list or the
    exception. *)
Fixpoint summarize_loop (env : Env) (todo : list PyVal) (acc : list PyVal) (w : World)
  : list PyVal * Res (list PyVal) * World :=
  match todo with
  | [] => ([], Ok acc, w)
  | article :: rest =>
      match article with
      | VDict a =>
          if truthy (dict_get a "error" VNone) then
            let '(rest1, r, w1) := summarize_loop env rest acc w in
            (article :: rest1, r, w1)
          else
            match get_llm_summary env a None w with
            | (Raise e, w1) => (article :: rest, Raise e, w1)
            | (Ok summary, w1) =>
                let article1 := VDict (<["summary" := summary]> a) in
                let '(rest1, r, w2) :=
                  summarize_loop env rest (acc ++ [article1])%list w1 in
                (article1 :: rest1, r, w2)
            end
      | _ =>
          (article :: rest, Raise (no_attribute article "get"), w)
      end
  end.

(** Node [summarize_articles] *)
Definition summarize_articles_async (env : Env) (state : NewsWorkflowState) (w : World)
  : NewsWorkflowState * World :=
  match articles state with
  | [] => (state, w)
  | _ =>
      let '(articles1, r, w1) := summarize_loop env (articles state) [] w in
      let state1 := set_articles state articles1 in
      match r with
      | Ok l => (set_summaries state1 l, w1)
      | Raise e => (set_error state1 ("Error summarizing articles: " ++ exn_msg e), w1)
      end
  end.

(** Node [send_notifications]. [send_email_summary] returns a boolean
    whatever happens, so the handler of this node has nothing to catch. *)
Definition send_notifications (env : Env) (state : NewsWorkflowState) (w : World)
  : NewsWorkflowState * World :=
  match summaries state with
  | [] => (state, w)
  | _ =>
      let '(sent, w1) := send_email_summary env (summaries state) w in
      (set_email_sent state sent, w1)
  end.

(** [should_send_email(state)] *)
Definition should_send_email (state : NewsWorkflowState) : string :=
  match summaries state with
  | [] => "no_summaries"
  | _ => "has_summaries"
  end.

(** The nodes of the graph built by [build_async_news_workflow]. *)
Inductive Node :=
| START
| fetch_articles_node
| extract_content_node
| summarize_articles_node
| send_notifications_node
| END.

Definition node_name (n : Node) : string :=
  match n with
  | START => "__start__"
  | fetch_articles_node => "fetch_articles"
  | extract_content_node => "extract_content"
  | summarize_articles_node => "summarize_articles"
  | send_notifications_node => "send_notifications"
  | END => "__end__"
  end.

(** [add_node]: the function run at each node. *)
Definition node_fn (env : Env) (n : Node) (state : NewsWorkflowState) (w : World)
  : NewsWorkflowState * World :=
  match n with
  | fetch_articles_node => fetch_articles_async env state w
  | extract_content_node => extract_content_async env state w
  | summarize_articles_node => summarize_articles_async env state w
  | send_notifications_node => send_notifications env state w
  | START | END => (state, w)
  end.

(** [add_edge] and [add_conditional_edges]: the node that follows [n] in
    the state [n] returned. *)
Definition next_node (n : Node) (state : NewsWorkflowState) : Node :=
  match n with
  | START => fetch_articles_node
  | fetch_articles_node => extract_content_node
  | extract_content_node => summarize_articles_node
  | summarize_articles_node =>
      if String.eqb (should_send_email state) "has_summaries"
      then send_notifications_node
      else END
  | send_notifications_node => END
  | END => END
  end.

(** A compiled graph: the function registered at each node and the
    successor given by the edges. *)
Record CompiledGraph := mkGraph {
  node_run : Node -> NewsWorkflowState -> World -> NewsWorkflowState * World;
  node_next : Node -> NewsWorkflowState -> Node
}.

(** [build_async_news_workflow()] *)
Definition build_async_news_workflow (env : Env) : CompiledGraph :=
  mkGraph (node_fn env) next_node.

(** The run of a compiled graph from node [n]: each node is entered, run,
    and followed by its successor until [END]; [None] when the step limit
    is used up first. *)
Fixpoint run_graph (workflow : CompiledGraph) (limit : nat) (n : Node)
    (state : NewsWorkflowState) (w : World) : option (NewsWorkflowState * World) :=
  match n with
  | END => Some (state, w)
  | _ =>
      match limit with
      | O => None
      | S k =>
          let '(state1, w1) := node_run workflow n state (enter (node_name n) w) in
          run_graph workflow k (node_next workflow n state1) state1 w1
      end
  end.

(** The default step limit of a compiled graph. *)
Definition recursion_limit : nat := 25.

(** [workflow.ainvoke(initial_state)] *)
Definition ainvoke (workflow : CompiledGraph) (state : NewsWorkflowState) (w : World)
  : option (NewsWorkflowState * World) :=
  run_graph workflow recursion_limit (node_next workflow START state) state w.

(* ===================================================================== *)
(** ** main.py, config.py *)
(* ===================================================================== *)

Definition NEWS_SOURCES : list PyVal :=
  [VStr "https://www.theverge.com"; VStr "https://techcrunch.com";
   VStr "https://news.ycombinator.com"; VStr "https://www.wired.com"].

(** The state [main_async] starts the workflow from, for a source list. *)
Definition initial_state (news_sources : list PyVal) : NewsWorkflowState :=
  mkState news_sources [] [] false EmptyString.

(** One run of the program. *)
Definition main_async (env : Env) (news_sources : list PyVal)
  : option (NewsWorkflowState * World) :=
  let workflow := build_async_news_workflow env in
  ainvoke workflow (initial_state news_sources) world0.

(* ===================================================================== *)
(** ** Concrete worlds *)
(* ===================================================================== *)

(** A world in which nothing answers: every request fails, no page parses,
    no credential is configured and no mail leaves. *)
Definition silent_env : Env :=
  mkEnv (fun _ _ => HttpFail)
        (fun _ => Raise (mkExn ExternalError "no markup"))
        (fun _ => "<object>")
        2
        None
        "deepseek/deepseek-chat-v3-0324:free"
        (fun _ _ _ => Raise (mkExn ExternalError "connection refused"))
        "recipient@example.com"
        (Ok "Daily News Summary - 2026-01-01")
        587
        (fun _ _ _ _ => false)
        (fun _ _ _ _ => false).

(** Fifty characters of text, and forty-nine. *)
Definition text50 : string := "The quick brown fox jumps over the lazy dog again.".
Definition text49 : string := "The quick brown fox jumps over the lazy dog again".

(** The pages of a small site: a front page with two article links, a
    relative link outside the site's article paths and a repeated link; one
    article with a heading; one article with an empty heading and an
    open-graph title. *)
Definition demo_parse (markup : PyVal) : Res Soup :=
  match markup with
  | VStr "front" =>
      Ok (mkSoup ["/news/a"; "/about"; "https://example.com/news/a"; "/story/b"]
                 (Some "Example") None [])
  | VStr "page-a" =>
      Ok (mkSoup [] (Some "  First headline ") None
                 ["  " ++ text50 ++ " "; "   "; "More   text
 follows."])
  | VStr "page-b" =>
      Ok (mkSoup [] (Some "   ") (Some (Some "Second headline")) [text50])
  | VStr "fifty" => Ok (mkSoup [] None None [text50])
  | VStr "fortynine" => Ok (mkSoup [] None None [text49])
  | VStr _ => Ok (mkSoup [] None None [])
  | _ => Raise (mkExn TypeError "object of this type has no len()")
  end.

Definition demo_http (n : nat) (url : string) : HttpResp :=
  if String.eqb url "https://example.com" then Http200 "front"
  else if String.eqb url "https://example.com/news/a" then Http200 "page-a"
  else if String.eqb url "https://example.com/story/b" then Http200 "page-b"
  else HttpFail.

(** A reply of the chat-completion endpoint carrying [text]. *)
Definition chat_reply (text : PyVal) : PyVal :=
  VDict (<["choices" :=
            VList [VDict (<["message" := VDict (<["content" := text]> ∅)]> ∅)]]> ∅).

(** A world with the small site, a configured credential, an endpoint that
    answers every prompt and a mail server that accepts. *)
Definition demo_env : Env :=
  mkEnv demo_http
        demo_parse
        (fun _ => "<object>")
        2
        (Some "sk-test")
        "deepseek/deepseek-chat-v3-0324:free"
        (fun _ _ _ => Ok (chat_reply (VStr "A short summary.")))
        "recipient@example.com"
        (Ok "Daily News Summary - 2026-01-01")
        587
        (fun _ _ _ _ => true)
        (fun _ _ _ _ => true).


(* ===================================================================== *)
(** ** Notions used in the statements *)
(* ===================================================================== *)

(** The state reached when the [summarize_articles] node has returned: the
    three unconditional nodes in the order of their edges. *)
Definition through_summarize (env : Env) (state : NewsWorkflowState) (w : World)
  : NewsWorkflowState * World :=
  let '(s1, w1) := fetch_articles_async env state (enter "fetch_articles" w) in
  let '(s2, w2) := extract_content_async env s1 (enter "extract_content" w1) in
  summarize_articles_async env s2 (enter "summarize_articles" w2).

(** Two worlds with the same nodes entered and the same notifier calls:
    only requests separate them. *)
Definition same_log (w w1 : World) : Prop :=
  visited w1 = visited w /\ mailed w1 = mailed w.

(** [v] is a dictionary. *)
Definition is_dict (v : PyVal) : bool :=
  match v with
  | VDict _ => true
  | _ => false
  end.

(** [not article.get('error')] on a dictionary *)
Definition error_free (v : PyVal) : bool :=
  match v with
  | VDict a => negb (truthy (dict_get a "error" VNone))
  | _ => false
  end.



#[global] Instance Node_eq_dec : EqDecision Node.
Proof. solve_decision. Defined.

(** The test [if title:] of [fetch_articles] on what [extract_title]
    returns. *)
Definition title_found (soup : Soup) : bool :=
  match extract_title soup with
  | Some title => negb (PyStr.is_empty title)
  | None => false
  end.

(** The discoverable title as the specification words it: a non-empty
    text of the first [h1], else a non-empty [og:title] content. *)
Definition spec_title_discoverable (soup : Soup) : bool :=
  match soup_h1 soup with
  | Some text => negb (PyStr.is_empty (PyStr.strip text))
  | None => false
  end
  || match soup_og_title soup with
     | Some (Some content) => negb (PyStr.is_empty (PyStr.strip content))
     | _ => false
     end.

(** An article dictionary whose [title] is a non-empty string. *)
Definition titled (a : Dict) : Prop :=
  exists t, a !! "title" = Some (VStr t) /\ t <> EmptyString.

(** The placeholder texts of [get_llm_summary]. *)
Definition no_key_text : string :=
  "Summary not available - OpenRouter API key not configured.".
Definition no_content_text : string := "No content available for summarization.".
Definition empty_reply_text : string := "Summary generation failed - empty response.".
Definition failed_text (e : Exn) : string := "Summary generation failed: " ++ exn_msg e.

(** [v] is one of the placeholders. *)
Definition placeholder (v : PyVal) : Prop :=
  v = VStr no_key_text \/ v = VStr no_content_text \/ v = VStr empty_reply_text
  \/ exists e, v = VStr (failed_text e).

(** The [content] of the article, when it has one that is true, is a
    string. *)
Definition text_content (a : Dict) : Prop :=
  forall v, a !! "content" = Some v -> truthy v = true -> exists s, v = VStr s.

(** An item the summarize loop can handle: a dictionary with a textual
    content. *)
Definition summarizable (v : PyVal) : Prop :=
  exists a, v = VDict a /\ text_content a.

(** What the summarize loop makes of an item: an item with an error is
    left as it is, any other receives the [summary] that [get_llm_summary]
    returned for it. *)
Definition summarized (env : Env) (v v1 : PyVal) : Prop :=
  (error_free v = false /\ v1 = v)
  \/ (exists a s w0 w1,
        v = VDict a /\ error_free v = true
        /\ get_llm_summary env a None w0 = (Ok s, w1)
        /\ v1 = VDict (<["summary" := s]> a)
        /\ error_free v1 = true).

(** The elements of [l] not in [seen], each at its first occurrence. *)
Fixpoint first_occurrences (seen l : list string) : list string :=
  match l with
  | [] => []
  | x :: rest =>
      if str_in_list x seen then first_occurrences seen rest
      else x :: first_occurrences (seen ++ [x])%list rest
  end.

(** An article as the fetch stage hands it over: a link that passed the
    filter, a non-empty title, the non-empty markup of its page, a source
    label, and none of the fields of the later stages. *)
Definition fetched (a : Dict) : Prop :=
  (exists link, a !! "url" = Some (VStr link) /\ likely_article link = true)
  /\ (exists title, a !! "title" = Some (VStr title) /\ title <> EmptyString)
  /\ (exists html, a !! "html" = Some (VStr html) /\ html <> EmptyString)
  /\ is_Some (a !! "source")
  /\ a !! "content" = None /\ a !! "error" = None /\ a !! "summary" = None.

(** A dictionary value that is a fetched article. *)
Definition fetched_item (v : PyVal) : Prop := exists a, v = VDict a /\ fetched a.

(** An article as the extract stage leaves it: a text of at least 50
    characters and no error, or a non-empty error and no text. *)
Definition extracted (v : PyVal) : Prop :=
  exists a, v = VDict a /\ a !! "summary" = None /\
    ((exists c, a !! "content" = Some (VStr c) /\ 50 <= String.length c
                /\ a !! "error" = None)
     \/ (exists e, a !! "error" = Some (VStr e) /\ e <> EmptyString
                   /\ a !! "content" = None)).

(** An article at the end of a run: a text with a summary that is true and
    no error, or a non-empty error with neither text nor summary. *)
Definition finished (v : PyVal) : Prop :=
  exists a, v = VDict a /\
    ((exists c s, a !! "content" = Some (VStr c) /\ 50 <= String.length c
                  /\ a !! "summary" = Some s /\ truthy s = true
                  /\ a !! "error" = None)
     \/ (exists e, a !! "error" = Some (VStr e) /\ e <> EmptyString
                   /\ a !! "content" = None /\ a !! "summary" = None)).

(** [s] holds a white-space character. *)
Fixpoint has_space (s : string) : bool :=
  match s with
  | EmptyString => false
  | String c rest => PyStr.is_space c || has_space rest
  end.

(** A word: a non-empty string without white space. *)
Definition word (s : string) : Prop := s <> EmptyString /\ has_space s = false.

(** The article with its [source] field set to [name]. *)
Definition with_source (name : PyVal) (v : PyVal) : PyVal :=
  match v with
  | VDict a => VDict (<["source" := name]> a)
  | _ => v
  end.

(** A source entry given as a string with "//" in it. *)
Definition url_source (v : PyVal) : Prop :=
  exists s, v = VStr s /\ 2 <= length (PyStr.split "//" s).

(** The dictionary that [fetch_articles_async] builds for such an entry. *)
Definition plain_source (d : Dict) : Prop :=
  exists s name, d = named_source name s /\ 2 <= length (PyStr.split "//" s).

(** An article whose [source] is a string. *)
Definition labelled (a : Dict) : Prop := exists l, a !! "source" = Some (VStr l).

(** The line feed that starts some of the printed lines. *)
Definition nl : string := String (ascii_of_nat 10) EmptyString.

(** The three [print] calls of [main_async] for the [i]-th summarized
    article. *)
Definition report_article (env : Env) (i : nat) (article : PyVal)
  : Res (list string) :=
  source <- py_get article "source" (VStr "Unknown Source") ;;
  title <- py_get article "title" (VStr "No Title") ;;
  url <- py_get article "url" (VStr "No URL") ;;
  summary <- py_get article "summary" (VStr "No summary available") ;;
  Ok [nl ++ pretty i ++ ". " ++ py_str env title ++ " (" ++ py_str env source ++ ")";
      "   URL: " ++ py_str env url;
      nl ++ "   Summary: " ++ py_str env summary].

(** [for i, article in enumerate(result["summaries"], 1): ...]: the lines
    printed, and the exception that ended the loop if there is one. *)
Fixpoint report_articles (env : Env) (i : nat) (l : list PyVal)
  : list string * option Exn :=
  match l with
  | [] => ([], None)
  | article :: rest =>
      match report_article env i article with
      | Raise e => ([], Some e)
      | Ok lines =>
          let '(more, r) := report_articles env (S i) rest in
          ((lines ++ more)%list, r)
      end
  end.

Definition success_line : string := "Workflow completed successfully.".
Definition no_summaries_line : string :=
  nl ++ "No important articles found for summarization.".
Definition summaries_header : string := nl ++ "=== ARTICLE SUMMARIES ===".
Definition warning_line : string :=
  nl ++ "Warning: Workflow has summaries but email wasn't sent.".

(** The first lines of the report: the counts and the error or the
    success line. *)
Definition report_head (result : NewsWorkflowState) : list string :=
  [nl ++ "Workflow completed!";
   "Articles processed: " ++ pretty (length (articles result));
   "Important summaries: " ++ pretty (length (summaries result));
   if negb (PyStr.is_empty (error result)) then "Error: " ++ error result
   else success_line].

(** The last line of the report, on the mail. *)
Definition report_mail (result : NewsWorkflowState) : list string :=
  if email_sent result then [nl ++ "Email was sent by the workflow."]
  else match summaries result with
       | [] => []
       | _ => [warning_line]
       end.

(** What [main_async] prints once the workflow has returned [result]: the
    lines, and the exception that cut them short if there is one. *)
Definition console_report (env : Env) (result : NewsWorkflowState)
  : list string * option Exn :=
  match summaries result with
  | [] =>
      ((report_head result ++ [no_summaries_line] ++ report_mail result)%list, None)
  | _ =>
      match report_articles env 1 (summaries result) with
      | (lines, None) =>
          ((report_head result ++ [summaries_header] ++ lines
            ++ report_mail result)%list, None)
      | (lines, Some e) =>
          ((report_head result ++ [summaries_header] ++ lines)%list, Some e)
      end
  end.

(** A printed line that starts with a line feed or a blank. *)
Definition indented (s : string) : Prop :=
  exists r, s = nl ++ r \/ s = " " ++ r.

(** [a1] is [a], but for its [source] field. *)
Definition renamed (a a1 : Dict) : Prop :=
  a1 = a \/ exists name, a1 = <["source" := name]> a.




(* ===================================================================== *)
(** ** Sanity checks of the string primitives *)
(* ===================================================================== *)

Example split_url :
  PyStr.split "//" "https://www.wired.com/a/b" = ["https:"; "www.wired.com/a/b"].
Proof. reflexivity. Qed.

Example split_without_separator : PyStr.split "//" "example.com" = ["example.com"].
Proof. reflexivity. Qed.

Example split_keeps_empty_pieces : PyStr.split "/" "/a//b/" = [""; "a"; ""; "b"; ""].
Proof. reflexivity. Qed.

Example replace_every_occurrence : PyStr.replace "www." "" "www.awww.b.com" = "ab.com".
Proof. reflexivity. Qed.

Example strip_both_ends : PyStr.strip "  a b  " = "a b".
Proof. reflexivity. Qed.

Example words_collapse : PyStr.words "  a  b c " = ["a"; "b"; "c"].
Proof. reflexivity. Qed.

Example text50_length : String.length text50 = 50 /\ String.length text49 = 49.
Proof. split; reflexivity. Qed.

Example source_name_strips_www :
  source_name_of "https://www.theverge.com/tech" = Ok "theverge.com".
Proof. reflexivity. Qed.

(* ===================================================================== *)
(** ** Requests leave the log alone *)
(* ===================================================================== *)

Lemma same_log_refl w : same_log w w.
Proof. by split. Qed.

Lemma same_log_trans w1 w2 w3 : same_log w1 w2 -> same_log w2 w3 -> same_log w1 w3.
Proof. intros [? ?] [? ?]; split; congruence. Qed.

Lemma same_log_tick w : same_log w (tick w).
Proof. by split. Qed.

Create HintDb logs.
#[local] Hint Resolve same_log_refl same_log_tick : logs.

Lemma fetch_attempts_log env n url w :
  same_log w (fetch_attempts env n url w).2.
Proof.
  revert w; induction n as [|n IH]; intros w; simpl; [apply same_log_refl|].
  destruct (http_get env (requests w) url); simpl.
  - apply same_log_tick.
  - eapply same_log_trans; [apply same_log_tick | apply IH].
Qed.

Lemma fetch_with_retry_log env url w :
  same_log w (fetch_with_retry env url w).2.
Proof.
  unfold fetch_with_retry.
  destruct url; try apply same_log_refl. apply fetch_attempts_log.
Qed.

Lemma fetch_link_log env name link arts w :
  same_log w (fetch_link env name link arts w).2.
Proof.
  unfold fetch_link.
  pose proof (fetch_with_retry_log env (VStr link) w) as H.
  destruct (fetch_with_retry env (VStr link) w) as [[h|] w1]; simpl in *; [|done].
  destruct (PyStr.is_empty h); [done|].
  destruct (bs4_parse env (VStr h)); [|done].
  destruct (extract_title _) as [t|]; [|done].
  by destruct (PyStr.is_empty t).
Qed.

Lemma fetch_links_log env name links arts w :
  same_log w (fetch_links env name links arts w).2.
Proof.
  revert arts w; induction links as [|l links IH]; intros arts w; simpl;
    [apply same_log_refl|].
  pose proof (fetch_link_log env name l arts w) as H.
  destruct (fetch_link env name l arts w) as [a1 w1]; simpl in *.
  eapply same_log_trans; [exact H | apply IH].
Qed.

Lemma fetch_source_log env max u name arts w :
  same_log w (fetch_source env max u name arts w).2.
Proof.
  unfold fetch_source.
  pose proof (fetch_with_retry_log env (VStr u) w) as H.
  destruct (fetch_with_retry env (VStr u) w) as [[h|] w1]; simpl in *; [|done].
  destruct (PyStr.is_empty h); [done|].
  destruct (bs4_parse env (VStr h)); [|done].
  eapply same_log_trans; [exact H | apply fetch_links_log].
Qed.

Lemma fetch_sources_log env max srcs arts w :
  same_log w (fetch_sources env max srcs arts w).2.
Proof.
  revert arts w; induction srcs as [|s srcs IH]; intros arts w; simpl;
    [apply same_log_refl|].
  destruct s; simpl; auto with logs.
  destruct (source_name_of s) as [name|e]; simpl; auto with logs.
  pose proof (fetch_source_log env max s name arts w) as H.
  destruct (fetch_source env max s name arts w) as [a1 w1]; simpl in *.
  eapply same_log_trans; [exact H | apply IH].
Qed.

Lemma batch_process_sources_log env srcs max w :
  same_log w (batch_process_sources env srcs max w).2.
Proof.
  unfold batch_process_sources, fetch_articles.
  destruct (source_urls_of srcs) as [urls|e]; simpl; auto with logs.
  pose proof (fetch_sources_log env max urls [] w) as H.
  by destruct (fetch_sources env max urls [] w) as [[a|e] w1].
Qed.

Lemma fetch_articles_async_log env state w :
  same_log w (fetch_articles_async env state w).2.
Proof.
  unfold fetch_articles_async.
  destruct (sources state) as [|s0 srcs]; [apply same_log_refl|].
  cbv beta iota.
  destruct (normalize_sources _ _) as [sl|bad|e]; try apply same_log_refl.
  pose proof (batch_process_sources_log env sl (MAX_ARTICLES_PER_SOURCE env) w) as H.
  destruct (batch_process_sources _ _ _ _) as [[found|e] w1]; simpl in *; [|done].
  by destruct found.
Qed.

Lemma obtain_html_log env a w : same_log w (obtain_html env a w).2.
Proof.
  unfold obtain_html.
  destruct (negb _); simpl; auto with logs.
  destruct (dict_item a "url") as [url|e]; simpl; auto with logs.
  pose proof (fetch_with_retry_log env url w) as H.
  destruct (fetch_with_retry env url w) as [[h|] w1]; simpl in *; [|done].
  by destruct (PyStr.is_empty h).
Qed.

Lemma extract_article_content_log env article w :
  same_log w (extract_article_content env article w).2.
Proof.
  destruct article; simpl; auto with logs.
  pose proof (obtain_html_log env d w) as H.
  destruct (obtain_html env d w) as [[[html|]|e] w1]; simpl in *; try done.
  destruct (bs4_parse env html); [|done].
  by destruct (_ || _).
Qed.

Lemma gather_log env arts w : same_log w (gather env arts w).2.
Proof.
  revert w; induction arts as [|a arts IH]; intros w; simpl; auto with logs.
  pose proof (extract_article_content_log env a w) as H.
  destruct (extract_article_content env a w) as [r w1]; simpl in *.
  specialize (IH w1).
  destruct (gather env arts w1) as [rs w2]; simpl in *.
  eapply same_log_trans; eauto.
Qed.

Lemma extract_content_async_log env state w :
  same_log w (extract_content_async env state w).2.
Proof.
  unfold extract_content_async, batch_process_articles.
  destruct (articles state) as [|a0 arts]; cbv beta iota.
  - destruct (PyStr.is_empty _); apply same_log_refl.
  - pose proof (gather_log env (a0 :: arts) w) as H.
    by destruct (gather env (a0 :: arts) w) as [rs w1].
Qed.

Lemma get_llm_summary_log env a model w :
  same_log w (get_llm_summary env a model w).2.
Proof.
  unfold get_llm_summary.
  destruct (api_key_missing env); simpl; auto with logs.
  destruct (negb _); simpl; auto with logs.
  destruct (res_bind (dict_item a "content") _) as [c|e]; simpl; auto with logs.
  destruct (res_bind (llm_post _ _ _ _) _) as [s|e]; simpl; auto with logs.
  destruct (negb _); simpl; auto with logs.
Qed.

Lemma summarize_loop_log env todo acc w :
  same_log w (summarize_loop env todo acc w).2.
Proof.
  revert acc w; induction todo as [|a todo IH]; intros acc w; simpl; auto with logs.
  destruct a; simpl; auto with logs.
  destruct (truthy _).
  - specialize (IH acc w). by destruct (summarize_loop env todo acc w) as [[? ?] ?].
  - pose proof (get_llm_summary_log env d None w) as H.
    destruct (get_llm_summary env d None w) as [[s|e] w1]; simpl in *; [|done].
    specialize (IH (acc ++ [VDict (<["summary":=s]> d)])%list w1).
    destruct (summarize_loop env todo _ w1) as [[? ?] ?]; simpl in *.
    eapply same_log_trans; eauto.
Qed.

Lemma summarize_articles_async_log env state w :
  same_log w (summarize_articles_async env state w).2.
Proof.
  unfold summarize_articles_async.
  destruct (articles state) as [|a0 arts]; [apply same_log_refl|].
  cbv beta iota.
  pose proof (summarize_loop_log env (a0 :: arts) [] w) as H.
  destruct (summarize_loop env (a0 :: arts) [] w) as [[a1 r] w1]; simpl in *.
  by destruct r.
Qed.

(* ===================================================================== *)
(** ** The graph *)
(* ===================================================================== *)

Lemma through_summarize_log env state w s3 w3 :
  through_summarize env state w = (s3, w3) ->
  visited w3 = (visited w ++ ["fetch_articles"; "extract_content"; "summarize_articles"])%list
  /\ mailed w3 = mailed w.
Proof.
  unfold through_summarize.
  pose proof (fetch_articles_async_log env state (enter "fetch_articles" w)) as H1.
  destruct (fetch_articles_async _ _ _) as [s1 w1].
  pose proof (extract_content_async_log env s1 (enter "extract_content" w1)) as H2.
  destruct (extract_content_async _ _ _) as [s2 w2].
  pose proof (summarize_articles_async_log env s2 (enter "summarize_articles" w2)) as H3.
  intros E; rewrite E in H3.
  destruct H1 as [V1 M1], H2 as [V2 M2], H3 as [V3 M3].
  cbn [snd visited mailed enter] in *.
  split.
  - rewrite V3, V2, V1. by rewrite <- !app_assoc.
  - congruence.
Qed.

Lemma send_email_summary_log env l w :
  visited (send_email_summary env l w).2 = visited w
  /\ mailed (send_email_summary env l w).2 = (mailed w ++ [l])%list.
Proof.
  unfold send_email_summary, send_email.
  destruct (res_bind (email_subject env) _) as [[subject body]|e]; [|split; reflexivity].
  destruct (_ =? _)%Z; split; reflexivity.
Qed.

Lemma run_graph_step env k n state w :
  n <> END ->
  run_graph (build_async_news_workflow env) (S k) n state w =
  let '(state1, w1) := node_fn env n state (enter (node_name n) w) in
  run_graph (build_async_news_workflow env) k (next_node n state1) state1 w1.
Proof. by destruct n. Qed.

Lemma run_graph_END workflow k state w :
  run_graph workflow k END state w = Some (state, w).
Proof. by destruct k. Qed.

Lemma ainvoke_unfold env state w :
  ainvoke (build_async_news_workflow env) state w =
  let '(s3, w3) := through_summarize env state w in
  match summaries s3 with
  | [] => Some (s3, w3)
  | _ => Some (send_notifications env s3 (enter "send_notifications" w3))
  end.
Proof.
  unfold ainvoke, recursion_limit, through_summarize.
  change (node_next _ START state) with fetch_articles_node.
  rewrite run_graph_step by done.
  change (node_fn env fetch_articles_node) with (fetch_articles_async env).
  change (node_name fetch_articles_node) with "fetch_articles".
  destruct (fetch_articles_async _ _ _) as [s1 w1].
  change (next_node fetch_articles_node s1) with extract_content_node.
  rewrite run_graph_step by done.
  change (node_fn env extract_content_node) with (extract_content_async env).
  change (node_name extract_content_node) with "extract_content".
  destruct (extract_content_async _ _ _) as [s2 w2].
  change (next_node extract_content_node s2) with summarize_articles_node.
  rewrite run_graph_step by done.
  change (node_fn env summarize_articles_node) with (summarize_articles_async env).
  change (node_name summarize_articles_node) with "summarize_articles".
  destruct (summarize_articles_async _ _ _) as [s3 w3].
  unfold next_node, should_send_email.
  destruct (summaries s3) as [|x l] eqn:E.
  - change ("no_summaries" =? "has_summaries")%string with false.
    cbv iota. apply run_graph_END.
  - change ("has_summaries" =? "has_summaries")%string with true.
    cbv iota. rewrite run_graph_step by done.
    change (node_fn env send_notifications_node) with (send_notifications env).
    change (node_name send_notifications_node) with "send_notifications".
    destruct (send_notifications _ _ _) as [s4 w4].
    apply run_graph_END.
Qed.

Lemma send_notifications_log env state w :
  visited (send_notifications env state w).2 = visited w
  /\ mailed (send_notifications env state w).2 =
     (mailed w ++ match summaries state with [] => [] | l => [l] end)%list.
Proof.
  unfold send_notifications.
  destruct (summaries state) as [|x l].
  - split; [done | by rewrite app_nil_r].
  - pose proof (send_email_summary_log env (x :: l) w) as H.
    by destruct (send_email_summary env (x :: l) w).
Qed.

Lemma send_notifications_summaries env state w :
  summaries (send_notifications env state w).1 = summaries state.
Proof.
  unfold send_notifications.
  destruct (summaries state) as [|x l] eqn:E; [done|].
  by destruct (send_email_summary env (x :: l) w).
Qed.

(* ===================================================================== *)
(** ** C1: the branch after summarize *)
(* ===================================================================== *)

(** C1. Whatever state and world a run starts from, it ends, and the
    notifier is called if and only if [summaries] is non-empty when the
    summarize node has returned: with an empty [summaries] the run ends in
    that very state, no notifier call is added and the
    [send_notifications] node is not entered; otherwise the node is entered
    once and the only notifier call added carries the whole [summaries]
    list. *)
Theorem notify_iff_summaries env state w :
  exists final wf,
    ainvoke (build_async_news_workflow env) state w = Some (final, wf) /\
    let s3 := (through_summarize env state w).1 in
    mailed wf =
      (mailed w ++ match summaries s3 with [] => [] | l => [l] end)%list /\
    visited wf =
      (visited w ++ ["fetch_articles"; "extract_content"; "summarize_articles"]
       ++ match summaries s3 with [] => [] | _ => ["send_notifications"] end)%list /\
    summaries final = summaries s3 /\
    match summaries s3 with [] => final = s3 | _ => True end.
Proof.
  rewrite ainvoke_unfold.
  destruct (through_summarize env state w) as [s3 w3] eqn:E3.
  apply through_summarize_log in E3 as [V3 M3].
  cbn [fst].
  destruct (summaries s3) as [|x l] eqn:ES.
  - exists s3, w3. rewrite ES, V3, M3, !app_nil_r. done.
  - pose proof (send_notifications_log env s3 (enter "send_notifications" w3)) as [V4 M4].
    pose proof (send_notifications_summaries env s3 (enter "send_notifications" w3)) as S4.
    destruct (send_notifications _ _ _) as [s4 w4]; cbn [fst snd] in *.
    exists s4, w4. rewrite ES in *. rewrite V4, M4; cbn [visited mailed enter].
    rewrite V3, M3, <- !app_assoc. done.
Qed.

(* ===================================================================== *)
(** ** C4: a run without sources *)
(* ===================================================================== *)

(** C4. A run started with an empty source list ends, after the three
    unconditional nodes and without the notifier, in a state with no
    summaries, [email_sent] false and the error "No sources provided.";
    nothing was requested. *)
Theorem no_sources_run env :
  exists final wf,
    main_async env [] = Some (final, wf) /\
    summaries final = [] /\
    email_sent final = false /\
    error final = no_sources_msg /\
    error final <> EmptyString /\
    visited wf = ["fetch_articles"; "extract_content"; "summarize_articles"] /\
    mailed wf = [] /\
    requests wf = 0.
Proof.
  eexists _, _. split.
  - unfold main_async. cbv zeta. rewrite ainvoke_unfold. reflexivity.
  - cbn. repeat split; done.
Qed.

(* ===================================================================== *)
(** ** C5: article links *)
(* ===================================================================== *)

(** What does hold of the links: they are the resolved references that pass
    the filter, each at its first occurrence, in the order of the page. *)
Lemma links_loop_first_occurrences base hrefs : forall links,
  links_loop base hrefs links =
  (links ++ first_occurrences links
              (List.filter likely_article (map (resolve_href base) hrefs)))%list.
Proof.
  induction hrefs as [|a hrefs IH]; intros links; cbn [links_loop map List.filter].
  - by rewrite app_nil_r.
  - destruct (likely_article (resolve_href base a)); [|apply IH].
    cbn [first_occurrences].
    destruct (str_in_list (resolve_href base a) links); cbn [negb]; [apply IH|].
    rewrite IH. by rewrite <- app_assoc.
Qed.

Lemma links_loop_likely base hrefs : forall links,
  Forall (fun l => likely_article l = true) links ->
  Forall (fun l => likely_article l = true) (links_loop base hrefs links).
Proof.
  induction hrefs as [|a hrefs IH]; intros links H; cbn [links_loop]; [done|].
  destruct (likely_article (resolve_href base a)) eqn:E; [|by apply IH].
  destruct (negb _); apply IH; [|done].
  apply Forall_app. split; [done|]. by apply Forall_singleton.
Qed.

Lemma str_in_list_false x l : str_in_list x l = false -> x ∉ l.
Proof.
  unfold str_in_list. induction l as [|y l IH]; cbn [existsb].
  - intros _. apply not_elem_of_nil.
  - intros H. apply orb_false_iff in H as [H1 H2].
    apply not_elem_of_cons. split; [|by apply IH].
    by apply String.eqb_neq.
Qed.

Lemma links_loop_NoDup base hrefs : forall links,
  NoDup links -> NoDup (links_loop base hrefs links).
Proof.
  induction hrefs as [|a hrefs IH]; intros links H; cbn [links_loop]; [done|].
  destruct (likely_article (resolve_href base a)); [|by apply IH].
  destruct (str_in_list (resolve_href base a) links) eqn:E; cbn [negb]; [by apply IH|].
  apply IH. apply NoDup_app. repeat split; [done | | apply NoDup_singleton].
  intros x Hx Hx'. apply list_elem_of_singleton in Hx' as ->.
  by apply str_in_list_false in E.
Qed.

(** C5. A relative link that does not start with a slash is left as it is
    by the resolution step, and the filter admits it as soon as it contains
    "/news/" (or "/story/"): the returned link is not absolute. The test
    [startswith('http')] guards only the "/article" alternative. *)
Theorem relative_news_link_kept :
  extract_article_links (mkSoup ["section/news/today"] None None [])
    "https://example.com" = ["section/news/today"]
  /\ PyStr.startswith "http" "section/news/today" = false
  /\ likely_article "ftp://host/story/1" = true
  /\ likely_article "section/article/1" = false.
Proof. repeat split; reflexivity. Qed.

(* ===================================================================== *)
(** ** C2: a malformed source entry *)
(* ===================================================================== *)


Lemma extract_content_async_noop env state w :
  articles state = [] -> error state <> EmptyString ->
  extract_content_async env state w = (state, w).
Proof.
  intros Ha He. unfold extract_content_async. rewrite Ha.
  destruct (error state); [done | reflexivity].
Qed.

Lemma summarize_articles_async_noop env state w :
  articles state = [] -> summarize_articles_async env state w = (state, w).
Proof. intros Ha. unfold summarize_articles_async. by rewrite Ha. Qed.

(** A state with no article, no summary and an error passes the rest of
    the graph unchanged: the two remaining nodes are entered and return it
    as it is, and the run ends without the notifier. *)
Lemma run_after_failed_fetch env srcs state w :
  fetch_articles_async env (initial_state srcs) (enter "fetch_articles" world0) = (state, w) ->
  articles state = [] -> summaries state = [] -> error state <> EmptyString ->
  main_async env srcs =
    Some (state, enter "summarize_articles" (enter "extract_content" w)).
Proof.
  intros Hf Ha Hs He.
  unfold main_async. cbv zeta. rewrite ainvoke_unfold. unfold through_summarize.
  rewrite Hf.
  rewrite extract_content_async_noop by done.
  rewrite summarize_articles_async_noop by done.
  by rewrite Hs.
Qed.

Lemma invalid_source_msg_nonempty env v : invalid_source_msg env v <> EmptyString.
Proof. done. Qed.

Lemma fetch_error_msg_nonempty e : fetch_error_msg e <> EmptyString.
Proof. done. Qed.




(* ===================================================================== *)
(** ** C3: an error, once set, stays *)
(* ===================================================================== *)

Lemma fetch_articles_async_error env state w :
  error state <> EmptyString ->
  error (fetch_articles_async env state w).1 <> EmptyString.
Proof.
  intros He. unfold fetch_articles_async.
  destruct (sources state) as [|s0 srcs]; [done|]. cbv beta iota.
  destruct (normalize_sources _ _) as [sl|bad|e]; [|done..].
  destruct (batch_process_sources _ _ _ _) as [[found|e] w1]; [|done].
  by destruct found.
Qed.

Lemma extract_content_async_error env state w :
  error state <> EmptyString ->
  error (extract_content_async env state w).1 <> EmptyString.
Proof.
  intros He. unfold extract_content_async.
  destruct (articles state) as [|a0 arts]; cbv beta iota.
  - by destruct (PyStr.is_empty _).
  - by destruct (batch_process_articles _ _ _).
Qed.

Lemma summarize_articles_async_error env state w :
  error state <> EmptyString ->
  error (summarize_articles_async env state w).1 <> EmptyString.
Proof.
  intros He. unfold summarize_articles_async.
  destruct (articles state) as [|a0 arts]; [done|]. cbv beta iota.
  destruct (summarize_loop _ _ _ _) as [[a1 r] w1].
  by destruct r.
Qed.

Lemma send_notifications_error env state w :
  error (send_notifications env state w).1 = error state.
Proof.
  unfold send_notifications.
  destruct (summaries state) as [|x l]; [done|].
  by destruct (send_email_summary _ _ _).
Qed.

Lemma node_fn_error env n state w :
  error state <> EmptyString -> error (node_fn env n state w).1 <> EmptyString.
Proof.
  intros He. destruct n; cbn [node_fn]; try done.
  - by apply fetch_articles_async_error.
  - by apply extract_content_async_error.
  - by apply summarize_articles_async_error.
  - by rewrite send_notifications_error.
Qed.

Lemma run_graph_error env k : forall n state w final wf,
  error state <> EmptyString ->
  run_graph (build_async_news_workflow env) k n state w = Some (final, wf) ->
  error final <> EmptyString.
Proof.
  induction k as [|k IH]; intros n state w final wf He Hrun.
  - destruct n; simplify_eq/=; done.
  - destruct (decide (n = END)) as [->|Hn].
    + rewrite run_graph_END in Hrun. by simplify_eq.
    + rewrite run_graph_step in Hrun by done.
      pose proof (node_fn_error env n state (enter (node_name n) w) He) as He1.
      destruct (node_fn env n state _) as [s1 w1]. eauto.
Qed.

(** What the fetch node returns from the initial state when it reports
    that no article was found. *)
Lemma fetch_no_articles env srcs s1 w1 :
  fetch_articles_async env (initial_state srcs) (enter "fetch_articles" world0) = (s1, w1) ->
  error s1 = no_articles_msg ->
  s1 = mkState srcs [] [] false no_articles_msg.
Proof.
  unfold fetch_articles_async. cbn [sources initial_state].
  destruct srcs as [|v srcs]; [by intros [= <- <-]|].
  destruct (normalize_sources _ _) as [sl|bad|e]; [|by intros [= <- <-]..].
  destruct (batch_process_sources _ _ _ _) as [[found|e] w2]; [|by intros [= <- <-]].
  destruct found; [by intros [= <- <-]|].
  by intros [= <- <-].
Qed.

(** C3. No node empties a non-empty [error]: every write of the field is
    a non-empty message, so the error that a node finds is still non-empty
    when the node returns, and so at the end of any run of the graph. When
    the fetch node of a run reports that no article was found, the item
    list is empty, the [extract_content] and [summarize_articles] nodes are
    still entered and return the state as they got it, and the run ends in
    that state, no-articles message included. *)
Theorem error_is_kept :
  (forall env n state w,
      error state <> EmptyString ->
      error (node_fn env n state w).1 <> EmptyString)
  /\ (forall env k n state w final wf,
      error state <> EmptyString ->
      run_graph (build_async_news_workflow env) k n state w = Some (final, wf) ->
      error final <> EmptyString)
  /\ (forall env srcs s1 w1,
      fetch_articles_async env (initial_state srcs) (enter "fetch_articles" world0)
        = (s1, w1) ->
      error s1 = no_articles_msg ->
      articles s1 = []
      /\ (forall w, extract_content_async env s1 w = (s1, w))
      /\ (forall w, summarize_articles_async env s1 w = (s1, w))
      /\ main_async env srcs =
           Some (s1, enter "summarize_articles" (enter "extract_content" w1))
      /\ visited (enter "summarize_articles" (enter "extract_content" w1)) =
           ["fetch_articles"; "extract_content"; "summarize_articles"]).
Proof.
  split; [exact node_fn_error|]. split; [exact run_graph_error|].
  intros env srcs s1 w1 Hf He.
  pose proof (fetch_no_articles env srcs s1 w1 Hf He) as ->.
  pose proof (fetch_articles_async_log env (initial_state srcs)
                (enter "fetch_articles" world0)) as [V _].
  rewrite Hf in V. cbn [snd] in V.
  repeat split; try done.
  - by apply (run_after_failed_fetch env srcs _ _ Hf).
  - cbn [visited enter]. rewrite V. reflexivity.
Qed.

(** C3, witness: a node run on a state with an error, and the run on the
    configured sources when nothing answers. *)
Lemma error_is_kept_witness :
  error (node_fn silent_env summarize_articles_node
           (mkState [] [VDict ∅] [] false "No sources provided.") world0).1
    <> EmptyString
  /\ main_async silent_env NEWS_SOURCES =
       Some (mkState NEWS_SOURCES [] [] false no_articles_msg,
             mkWorld 12 ["fetch_articles"; "extract_content"; "summarize_articles"] []).
Proof.
  destruct error_is_kept as (Hnode & _ & Hrun). split.
  - apply Hnode. discriminate.
  - destruct (Hrun silent_env NEWS_SOURCES
                (mkState NEWS_SOURCES [] [] false no_articles_msg)
                (mkWorld 12 ["fetch_articles"] [])) as (_ & _ & _ & H & _).
    + vm_compute. reflexivity.
    + reflexivity.
    + exact H.
Defined.

(* ===================================================================== *)
(** ** C6, C10: the outcome of content extraction *)
(* ===================================================================== *)

(** How [extract_article_content] ends on a dictionary: one of its four
    assignments, on the copy of the article. *)
Lemma extract_article_content_cases env a w :
  exists w1,
    same_log w w1 /\
    ((exists c, extract_article_content env (VDict a) w
                = (Ok (<["content" := VStr c]> a), w1)
                /\ 50 <= String.length c)
     \/ (exists e, extract_article_content env (VDict a) w
                   = (Ok (<["error" := VStr e]> a), w1)
                   /\ e <> EmptyString)).
Proof.
  pose proof (extract_article_content_log env (VDict a) w) as Hlog.
  unfold extract_article_content in *.
  destruct (obtain_html env a w) as [[[html|]|e] w1]; cbn [snd] in *.
  - destruct (bs4_parse env html) as [soup|e]; cbv zeta in *.
    + destruct (PyStr.is_empty (clean_content soup)) eqn:Ee; cbn [orb] in *.
      * exists w1. split; [done|]. right. eexists. split; [reflexivity | done].
      * destruct (String.length (clean_content soup) <? 50)%nat eqn:El.
        -- exists w1. split; [done|]. right. eexists. split; [reflexivity | done].
        -- exists w1. split; [done|]. left. eexists. split; [reflexivity|].
           apply Nat.ltb_ge in El. exact El.
    + exists w1. split; [done|]. right. eexists. split; [reflexivity | done].
  - exists w1. split; [done|]. right. eexists. split; [reflexivity | done].
  - exists w1. split; [done|]. right. eexists. split; [reflexivity | done].
Qed.

(** C6. Once the markup of an item is obtained and parsed, the item is
    accepted when its cleaned text has exactly 50 characters: [content] is
    set to that text and no error is written. With at most 49 characters,
    the empty text included, the error "Insufficient content extracted" is
    written and [content] is not. *)
Theorem content_threshold env a w html w1 soup :
  obtain_html env a w = (Ok (Some html), w1) ->
  bs4_parse env html = Ok soup ->
  (String.length (clean_content soup) = 50 ->
   extract_article_content env (VDict a) w
     = (Ok (<["content" := VStr (clean_content soup)]> a), w1)
   /\ (<["content" := VStr (clean_content soup)]> a) !! "error" = a !! "error")
  /\ (String.length (clean_content soup) <= 49 ->
      extract_article_content env (VDict a) w
        = (Ok (<["error" := VStr "Insufficient content extracted"]> a), w1)
      /\ (<["error" := VStr "Insufficient content extracted"]> a) !! "content"
         = a !! "content").
Proof.
  intros Hh Hp. unfold extract_article_content. rewrite Hh, Hp. cbv zeta.
  split; intros Hlen.
  - destruct (clean_content soup) as [|c0 rest] eqn:Ec; [done|].
    cbn [PyStr.is_empty orb]. rewrite Hlen. 
    split; [reflexivity | by rewrite lookup_insert_ne].
  - split; [|by rewrite lookup_insert_ne].
    destruct (PyStr.is_empty (clean_content soup)); [reflexivity|]. cbn [orb].
    destruct (Nat.ltb_spec (String.length (clean_content soup)) 50); [reflexivity | lia].
Qed.

(** C6, witness: a page whose text has 50 characters and one with 49. *)
Lemma content_threshold_witness :
  extract_article_content demo_env (VDict (<["html" := VStr "fifty"]> ∅)) world0
    = (Ok (<["content" := VStr text50]> (<["html" := VStr "fifty"]> ∅)), world0)
  /\ extract_article_content demo_env (VDict (<["html" := VStr "fortynine"]> ∅)) world0
     = (Ok (<["error" := VStr "Insufficient content extracted"]>
              (<["html" := VStr "fortynine"]> ∅)), world0).
Proof.
  split.
  - refine (proj1 (proj1 (content_threshold demo_env (<["html" := VStr "fifty"]> ∅) world0
                     (VStr "fifty") world0
                     (mkSoup [] None None [text50]) _ _) _));
      reflexivity.
  - refine (proj1 (proj2 (content_threshold demo_env (<["html" := VStr "fortynine"]> ∅) world0
                     (VStr "fortynine") world0
                     (mkSoup [] None None [text49]) _ _) _)).
    + reflexivity.
    + reflexivity.
    + vm_compute. lia.
Defined.

(** C10. On an item without an [error] field, [extract_article_content]
    returns the copy of the item with exactly one field written: [content]
    with a text and no [error], or [error] with a message and [content] as
    it was. Every other field, among them [url], [title], [html] and
    [source], is as in the item; when the item had no [content] either, the
    result has [content] or [error] and never both. *)
Theorem extract_adds_one_outcome env a w :
  a !! "error" = None ->
  exists res w1,
    extract_article_content env (VDict a) w = (Ok res, w1) /\
    ((exists c, res = <["content" := VStr c]> a /\ res !! "error" = None)
     \/ (exists e, res = <["error" := VStr e]> a /\ e <> EmptyString
                   /\ res !! "content" = a !! "content")) /\
    (res !! "url" = a !! "url" /\ res !! "title" = a !! "title"
     /\ res !! "html" = a !! "html" /\ res !! "source" = a !! "source") /\
    (forall k, k <> "content" -> k <> "error" -> res !! k = a !! k) /\
    (a !! "content" = None ->
     (is_Some (res !! "content") <-> res !! "error" = None)).
Proof.
  intros Herr.
  destruct (extract_article_content_cases env a w)
    as (w1 & _ & [(c & Hx & _) | (e & Hx & He)]); rewrite Hx.
  - eexists _, w1. split; [reflexivity|].
    split; [left; exists c; split; [reflexivity | by rewrite lookup_insert_ne]|].
    split; [by rewrite !lookup_insert_ne|].
    split; [intros k Hk _; by rewrite lookup_insert_ne|].
    intros _. rewrite lookup_insert_eq, lookup_insert_ne by done.
    split; [done | eauto].
  - eexists _, w1. split; [reflexivity|].
    split; [right; exists e; repeat split; [done | by rewrite lookup_insert_ne]|].
    split; [by rewrite !lookup_insert_ne|].
    split; [intros k _ Hk; by rewrite lookup_insert_ne|].
    intros Hc. rewrite lookup_insert_eq, lookup_insert_ne, Hc by done.
    split; [by intros [v Hv] | done].
Qed.

(** C10, witness: the article of the small site. *)
Lemma extract_adds_one_outcome_witness :
  exists res w1,
    extract_article_content demo_env
      (VDict (new_article "https://example.com/news/a" "First headline" "page-a" "example.com"))
      world0 = (Ok res, w1)
    /\ res !! "url" = Some (VStr "https://example.com/news/a")
    /\ (is_Some (res !! "content") <-> res !! "error" = None).
Proof.
  destruct (extract_adds_one_outcome demo_env
              (new_article "https://example.com/news/a" "First headline" "page-a" "example.com")
              world0 eq_refl)
    as (res & w1 & Hx & _ & (Hurl & _) & _ & Hone).
  exists res, w1. split; [exact Hx|]. split; [exact Hurl|]. apply Hone. reflexivity.
Defined.

(* ===================================================================== *)
(** ** C9: faults inside a batch *)
(* ===================================================================== *)

Lemma extract_article_content_raises env v w :
  is_dict v = false -> exists e, extract_article_content env v w = (Raise e, w).
Proof. destruct v; intros H; try discriminate H; eexists; reflexivity. Qed.

Lemma extract_article_content_returns env v w :
  is_dict v = true -> exists res w1, extract_article_content env v w = (Ok res, w1).
Proof.
  destruct v as [| | | | |a]; intros H; try discriminate H.
  destruct (extract_article_content_cases env a w)
    as (w1 & _ & [(c & Hx & _) | (e & Hx & _)]); eauto.
Qed.

Lemma keep_results_acc rs : forall acc,
  keep_results rs acc = (acc ++ keep_results rs [])%list.
Proof.
  induction rs as [|[res|e] rs IH]; intros acc; cbn [keep_results].
  - by rewrite app_nil_r.
  - rewrite (IH (acc ++ [res])%list), (IH ([] ++ [res])%list).
    by rewrite <- !app_assoc.
  - apply IH.
Qed.

(** The tasks of the items that are not dictionaries contribute nothing
    to what [gather] hands to the loop that follows. *)
Lemma gather_filter env arts : forall w,
  keep_results (gather env arts w).1 [] =
    keep_results (gather env (List.filter is_dict arts) w).1 []
  /\ (gather env arts w).2 = (gather env (List.filter is_dict arts) w).2.
Proof.
  induction arts as [|v arts IH]; intros w; [done|].
  cbn [List.filter gather].
  destruct (is_dict v) eqn:Hd.
  - cbn [gather].
    destruct (extract_article_content env v w) as [r w1].
    destruct (IH w1) as [IH1 IH2].
    destruct (gather env arts w1) as [rs w2].
    destruct (gather env (List.filter is_dict arts) w1) as [rs' w2'].
    cbn [fst snd] in *. split; [|done].
    destruct r as [res|e]; cbn [keep_results]; [|done].
    rewrite (keep_results_acc rs), (keep_results_acc rs'). by rewrite IH1.
  - destruct (extract_article_content_raises env v w Hd) as [e ->].
    destruct (IH w) as [IH1 IH2].
    destruct (gather env arts w) as [rs w2]. by cbn [fst snd keep_results] in *.
Qed.

Lemma gather_results env arts : forall w,
  Forall2 (fun v res => exists w0 w1, extract_article_content env v w0 = (Ok res, w1))
    (List.filter is_dict arts) (keep_results (gather env arts w).1 []).
Proof.
  induction arts as [|v arts IH]; intros w; [constructor|].
  cbn [List.filter gather].
  destruct (is_dict v) eqn:Hd.
  - destruct (extract_article_content_returns env v w Hd) as (res & w1 & Hx).
    rewrite Hx. specialize (IH w1).
    destruct (gather env arts w1) as [rs w2]. cbn [fst keep_results] in *.
    rewrite keep_results_acc. constructor; eauto.
  - destruct (extract_article_content_raises env v w Hd) as [e ->].
    specialize (IH w).
    destruct (gather env arts w) as [rs w2]. by cbn [fst keep_results] in *.
Qed.

(** C9. In [batch_process_articles] an item whose processing raises is an
    item that is not a dictionary; a dictionary never raises. The batch
    returns a list whatever the items are, and it returns what it returns
    for the same batch without the faulting items, requests included: the
    results of the other items are there, in the order of the input, each
    the result of [extract_article_content] on its item. *)
Theorem batch_isolates_faults env arts w :
  (forall v w0, is_dict v = false ->
                exists e, extract_article_content env v w0 = (Raise e, w0))
  /\ (forall v w0, is_dict v = true ->
                   exists res w1, extract_article_content env v w0 = (Ok res, w1))
  /\ batch_process_articles env arts w
     = batch_process_articles env (List.filter is_dict arts) w
  /\ Forall2 (fun v res =>
                exists w0 w1, extract_article_content env v w0 = (Ok res, w1))
       (List.filter is_dict arts) (batch_process_articles env arts w).1.
Proof.
  split; [intros; by apply extract_article_content_raises|].
  split; [intros; by apply extract_article_content_returns|].
  unfold batch_process_articles.
  pose proof (gather_filter env arts w) as [H1 H2].
  pose proof (gather_results env arts w) as H3.
  destruct (gather env arts w) as [rs w1].
  destruct (gather env (List.filter is_dict arts) w) as [rs' w1'].
  cbn [fst snd] in *. split; [congruence | done].
Qed.

(** C9, witness: a batch of the small site with three items that are not
    dictionaries. *)
Lemma batch_isolates_faults_witness :
  (exists e, extract_article_content demo_env (VInt 1) world0 = (Raise e, world0))
  /\ batch_process_articles demo_env
       [VInt 1; VDict (<["html" := VStr "fifty"]> ∅); VList [];
        VDict (<["html" := VStr "fortynine"]> ∅); VStr "x"] world0
     = batch_process_articles demo_env
         [VDict (<["html" := VStr "fifty"]> ∅);
          VDict (<["html" := VStr "fortynine"]> ∅)] world0.
Proof.
  destruct (batch_isolates_faults demo_env
              [VInt 1; VDict (<["html" := VStr "fifty"]> ∅); VList [];
               VDict (<["html" := VStr "fortynine"]> ∅); VStr "x"] world0)
    as (Hraise & _ & Hbatch & _).
  split; [apply Hraise; reflexivity | exact Hbatch].
Defined.

Example batch_with_faulting_items :
  (batch_process_articles demo_env
     [VInt 1; VDict (<["html" := VStr "fifty"]> ∅); VList [];
      VDict (<["html" := VStr "fortynine"]> ∅); VStr "x"] world0).1
  = [<["content" := VStr text50]> (<["html" := VStr "fifty"]> ∅);
     <["error" := VStr "Insufficient content extracted"]>
       (<["html" := VStr "fortynine"]> ∅)].
Proof. reflexivity. Qed.

(* ===================================================================== *)
(** ** C7: the title gate of the fetch stage *)
(* ===================================================================== *)

Lemma is_empty_false s : PyStr.is_empty s = false <-> s <> EmptyString.
Proof. destruct s; split; done. Qed.

Lemma title_found_spec soup :
  title_found soup = true <->
  (exists text, soup_h1 soup = Some text /\ PyStr.strip text <> EmptyString)
  \/ (soup_h1 soup = None
      /\ exists content, soup_og_title soup = Some content
                         /\ PyStr.strip (default EmptyString content) <> EmptyString).
Proof.
  unfold title_found, extract_title.
  destruct (soup_h1 soup) as [text|].
  - rewrite negb_true_iff, is_empty_false. split.
    + intros H. left. eauto.
    + intros [(t & [= <-] & H) | (H & _)]; done.
  - destruct (soup_og_title soup) as [content|].
    + rewrite negb_true_iff, is_empty_false. split.
      * intros H. right. eauto.
      * intros [(t & H & _) | (_ & c & [= <-] & H)]; done.
    + split; [done|]. intros [(t & H & _) | (_ & c & H & _)]; done.
Qed.

Lemma new_article_titled link title html name :
  title <> EmptyString -> titled (new_article link title html name).
Proof. intros H. exists title. split; [reflexivity | done]. Qed.

Lemma fetch_link_titled env name link arts w :
  Forall titled arts -> Forall titled (fetch_link env name link arts w).1.
Proof.
  intros H. unfold fetch_link.
  destruct (fetch_with_retry env (VStr link) w) as [[h|] w1]; [|done].
  destruct (PyStr.is_empty h); [done|].
  destruct (bs4_parse env (VStr h)) as [soup|e]; [|done].
  destruct (extract_title soup) as [t|]; [|done].
  destruct (PyStr.is_empty t) eqn:Et; [done|]. cbn [fst].
  apply Forall_app. split; [done|].
  apply Forall_singleton, new_article_titled. by apply is_empty_false.
Qed.

Lemma fetch_links_titled env name links : forall arts w,
  Forall titled arts -> Forall titled (fetch_links env name links arts w).1.
Proof.
  induction links as [|l links IH]; intros arts w H; [done|].
  cbn [fetch_links].
  pose proof (fetch_link_titled env name l arts w H) as H1.
  destruct (fetch_link env name l arts w) as [a1 w1]. by apply IH.
Qed.

Lemma fetch_source_titled env max u name arts w :
  Forall titled arts -> Forall titled (fetch_source env max u name arts w).1.
Proof.
  intros H. unfold fetch_source.
  destruct (fetch_with_retry env (VStr u) w) as [[h|] w1]; [|done].
  destruct (PyStr.is_empty h); [done|].
  destruct (bs4_parse env (VStr h)) as [soup|e]; [|done].
  by apply fetch_links_titled.
Qed.

Lemma fetch_sources_titled env max srcs : forall arts w found w1,
  Forall titled arts ->
  fetch_sources env max srcs arts w = (Ok found, w1) ->
  Forall titled found.
Proof.
  induction srcs as [|s srcs IH]; intros arts w found w1 H; cbn [fetch_sources].
  - by intros [= <- <-].
  - destruct s; try done.
    destruct (source_name_of s) as [name|e]; [|done].
    pose proof (fetch_source_titled env max s name arts w H) as H1.
    destruct (fetch_source env max s name arts w) as [a1 w2]. by apply IH.
Qed.

Lemma rename_source_titled srcs : forall a a',
  titled a -> rename_source srcs a = Ok a' -> titled a'.
Proof.
  induction srcs as [|src srcs IH]; intros a a' H; cbn [rename_source].
  - by intros [= <-].
  - destruct (dict_item a "source") as [label|e]; [|done]. cbn [res_bind].
    destruct (dict_item src "url") as [url|e]; [|done]. cbn [res_bind].
    destruct (match label with VStr l => py_str_in l url | _ => _ end) as [[|]|e];
      cbn [res_bind]; [| by apply IH | done].
    destruct (dict_item src "name") as [nm|e]; [|done]. cbn [res_bind].
    intros [= <-]. destruct H as (t & Ht & Hne). exists t.
    by rewrite lookup_insert_ne.
Qed.

Lemma rename_sources_titled srcs arts : forall found,
  Forall titled arts -> rename_sources srcs arts = Ok found -> Forall titled found.
Proof.
  induction arts as [|a arts IH]; intros found H; cbn [rename_sources].
  - by intros [= <-].
  - apply Forall_cons in H as [Ha H].
    destruct (rename_source srcs a) as [a'|e] eqn:Er; [|done]. cbn [res_bind].
    destruct (rename_sources srcs arts) as [r|e]; [|done]. cbn [res_bind].
    intros [= <-]. constructor; [by eapply rename_source_titled | by apply IH].
Qed.

Lemma fetch_link_prefix env name link arts w :
  arts `prefix_of` (fetch_link env name link arts w).1.
Proof.
  unfold fetch_link.
  destruct (fetch_with_retry env (VStr link) w) as [[h|] w1]; [|done].
  destruct (PyStr.is_empty h); [done|].
  destruct (bs4_parse env (VStr h)) as [soup|e]; [|done].
  destruct (extract_title soup) as [t|]; [|done].
  destruct (PyStr.is_empty t); [done|]. cbn [fst]. by apply prefix_app_r.
Qed.

Lemma fetch_links_prefix env name links : forall arts w,
  arts `prefix_of` (fetch_links env name links arts w).1.
Proof.
  induction links as [|l links IH]; intros arts w; [done|]. cbn [fetch_links].
  pose proof (fetch_link_prefix env name l arts w) as H1.
  destruct (fetch_link env name l arts w) as [a1 w1]. cbn [fst] in H1.
  etrans; [exact H1 | apply IH].
Qed.

Lemma fetch_source_prefix env max u name arts w :
  arts `prefix_of` (fetch_source env max u name arts w).1.
Proof.
  unfold fetch_source.
  destruct (fetch_with_retry env (VStr u) w) as [[h|] w1]; [|done].
  destruct (PyStr.is_empty h); [done|].
  destruct (bs4_parse env (VStr h)) as [soup|e]; [|done].
  apply fetch_links_prefix.
Qed.

Lemma fetch_sources_prefix env max srcs : forall arts w found w1,
  fetch_sources env max srcs arts w = (Ok found, w1) -> arts `prefix_of` found.
Proof.
  induction srcs as [|s srcs IH]; intros arts w found w1; cbn [fetch_sources].
  - by intros [= <- <-].
  - destruct s; try done.
    destruct (source_name_of s) as [name|e]; [|done].
    pose proof (fetch_source_prefix env max s name arts w) as H1.
    destruct (fetch_source env max s name arts w) as [a1 w2]. cbn [fst] in H1.
    intros H. etrans; [exact H1 | by eapply IH].
Qed.

Lemma rename_source_renamed srcs : forall a a1,
  rename_source srcs a = Ok a1 -> renamed a a1.
Proof.
  induction srcs as [|src srcs IH]; intros a a1; cbn [rename_source].
  - intros [= <-]. by left.
  - destruct (dict_item a "source") as [label|e]; [|done]. cbn [res_bind].
    destruct (dict_item src "url") as [url|e]; [|done]. cbn [res_bind].
    destruct (match label with VStr l => py_str_in l url | _ => _ end) as [[|]|e];
      cbn [res_bind]; [| by apply IH | done].
    destruct (dict_item src "name") as [nm|e]; [|done]. cbn [res_bind].
    intros [= <-]. right. by exists nm.
Qed.

Lemma rename_sources_renamed srcs arts : forall found,
  rename_sources srcs arts = Ok found -> Forall2 renamed arts found.
Proof.
  induction arts as [|a arts IH]; intros found; cbn [rename_sources].
  - intros [= <-]. constructor.
  - destruct (rename_source srcs a) as [a1|e] eqn:Er; [|done]. cbn [res_bind].
    destruct (rename_sources srcs arts) as [r|e]; [|done]. cbn [res_bind].
    intros [= <-]. constructor; [by eapply rename_source_renamed | by apply IH].
Qed.

(** How the fetch node ends once the sources are converted: with the
    articles of [batch_process_sources] in the state, or, when that raises,
    with the state's articles untouched and the exception in [error]. *)
Lemma fetch_articles_async_batch env state w sl :
  sources state <> [] ->
  normalize_sources (sources state) [] = SourcesOk sl ->
  fetch_articles_async env state w =
  match batch_process_sources env sl (MAX_ARTICLES_PER_SOURCE env) w with
  | (Ok found, w1) =>
      (match found with
       | [] => set_error (set_articles state []) no_articles_msg
       | _ => set_articles state (map VDict found)
       end, w1)
  | (Raise e, w1) => (set_error state (fetch_error_msg e), w1)
  end.
Proof.
  intros Hne Hn. unfold fetch_articles_async.
  destruct (sources state) as [|v srcs] eqn:Es; [done|]. rewrite Hn.
  destruct (batch_process_sources _ _ _ _) as [[[|a found]|e] w1]; reflexivity.
Qed.

(** C7 (amended). For a candidate page that was fetched and parsed,
    [fetch_articles] appends an item to its list exactly when
    [extract_title] returns a non-empty string, that is when the page has an
    [h1] whose stripped text is non-empty, or has no [h1] at all and an
    [og:title] meta whose stripped content is non-empty: an [h1] without
    text is not passed over for the [og:title]. An appended item carries
    that title and keeps its place through the remaining links and the
    remaining sources; when the stage ends without an exception the list
    goes to [articles], each item with at most its [source] renamed, and
    every item there has a non-empty title; when an exception ends the stage
    the collected items are discarded and the exception is recorded in
    [error]. An item without such a title is dropped in silence: the list is
    as it was, the loop goes on as if the link were not there, and nothing
    but the list and the requests issued comes out of it. *)
Theorem title_gate env name link arts w html w1 soup :
  fetch_with_retry env (VStr link) w = (Some html, w1) ->
  html <> EmptyString ->
  bs4_parse env (VStr html) = Ok soup ->
  (title_found soup = true <->
   (exists text, soup_h1 soup = Some text /\ PyStr.strip text <> EmptyString)
   \/ (soup_h1 soup = None
       /\ exists content, soup_og_title soup = Some content
                          /\ PyStr.strip (default EmptyString content) <> EmptyString))
  /\ (title_found soup = true ->
      exists title, extract_title soup = Some title /\
        fetch_link env name link arts w
          = ((arts ++ [new_article link title html name])%list, w1)
        /\ (forall rest,
              (arts ++ [new_article link title html name])%list
                `prefix_of` (fetch_links env name (link :: rest) arts w).1)
        /\ (forall rest max srcs found w2,
              fetch_sources env max srcs
                (fetch_links env name (link :: rest) arts w).1
                (fetch_links env name (link :: rest) arts w).2 = (Ok found, w2) ->
              (arts ++ [new_article link title html name])%list
                `prefix_of` found))
  /\ (title_found soup = false ->
      fetch_link env name link arts w = (arts, w1)
      /\ forall rest,
           fetch_links env name (link :: rest) arts w
           = fetch_links env name rest arts w1)
  /\ (forall max u name0 arts0 w0,
        arts0 `prefix_of` (fetch_source env max u name0 arts0 w0).1)
  /\ (forall max srcs arts0 w0 found w2,
        fetch_sources env max srcs arts0 w0 = (Ok found, w2) ->
        arts0 `prefix_of` found)
  /\ (forall srcs max w0 found w2,
        batch_process_sources env srcs max w0 = (Ok found, w2) ->
        Forall titled found
        /\ exists urls collected,
             source_urls_of srcs = Ok urls
             /\ fetch_articles env urls max w0 = (Ok collected, w2)
             /\ Forall2 renamed collected found)
  /\ (forall state w0 sl,
        sources state <> [] ->
        normalize_sources (sources state) [] = SourcesOk sl ->
        fetch_articles_async env state w0 =
        match batch_process_sources env sl (MAX_ARTICLES_PER_SOURCE env) w0 with
        | (Ok found, w2) =>
            (match found with
             | [] => set_error (set_articles state []) no_articles_msg
             | _ => set_articles state (map VDict found)
             end, w2)
        | (Raise e, w2) => (set_error state (fetch_error_msg e), w2)
        end).
Proof.
  intros Hf Hne Hp. split; [apply title_found_spec|].
  apply is_empty_false in Hne.
  assert (Hlink : fetch_link env name link arts w =
                  match extract_title soup with
                  | Some title =>
                      if PyStr.is_empty title then (arts, w1)
                      else ((arts ++ [new_article link title html name])%list, w1)
                  | None => (arts, w1)
                  end).
  { unfold fetch_link. by rewrite Hf, Hne, Hp. }
  unfold title_found.
  split; [|split; [|split; [|split; [|split]]]].
  - destruct (extract_title soup) as [t|]; [|done].
    intros Ht. apply negb_true_iff in Ht. rewrite Ht in Hlink.
    assert (Hrest : forall rest,
               (arts ++ [new_article link t html name])%list
                 `prefix_of` (fetch_links env name (link :: rest) arts w).1).
    { intros rest. cbn [fetch_links]. rewrite Hlink. apply fetch_links_prefix. }
    exists t. split; [done|]. split; [done|]. split; [exact Hrest|].
    intros rest max srcs found w2 Hs. etrans; [apply Hrest|].
    eapply fetch_sources_prefix, Hs.
  - intros Ht.
    assert (Hdrop : fetch_link env name link arts w = (arts, w1)).
    { destruct (extract_title soup) as [t|]; [|done].
      apply negb_false_iff in Ht. by rewrite Ht in Hlink. }
    split; [done|]. intros rest. cbn [fetch_links]. by rewrite Hdrop.
  - intros. apply fetch_source_prefix.
  - intros max srcs arts0 w0 found w2. apply fetch_sources_prefix.
  - intros srcs max w0 found w2. unfold batch_process_sources, fetch_articles.
    destruct (source_urls_of srcs) as [urls|e]; [|done].
    destruct (fetch_sources env max urls [] w0) as [[l|e] w3] eqn:E; [|done].
    intros [= Hr <-]. split.
    + eapply rename_sources_titled; [|exact Hr].
      eapply fetch_sources_titled; [|exact E]. constructor.
    + exists urls, l. split; [done|]. split; [done|].
      by eapply rename_sources_renamed.
  - intros state w0 sl. apply fetch_articles_async_batch.
Qed.

(** C7, witness: the first article of the small site. *)
Lemma title_gate_witness :
  fetch_link demo_env "example.com" "https://example.com/news/a" [] world0
  = ([new_article "https://example.com/news/a" "First headline" "page-a" "example.com"],
     tick world0).
Proof.
  destruct (title_gate demo_env "example.com" "https://example.com/news/a" []
              world0 "page-a" (tick world0)
              (mkSoup [] (Some "  First headline ") None
                 ["  " ++ text50 ++ " "; "   "; "More   text
 follows."])) as (_ & Hkeep & _).
  - reflexivity.
  - discriminate.
  - reflexivity.
  - destruct Hkeep as (title & Ht & Hx & _ & _); [reflexivity|].
    injection Ht as <-. exact Hx.
Defined.

(** A titled page fetched for a dictionary source without [name]: the
    renaming loop raises, the item is lost and the exception is recorded. *)
Example titled_page_lost_without_name :
  fetch_articles_async demo_env
    (initial_state [VDict (<["url" := VStr "https://example.com"]> ∅)]) world0
  = (set_error (initial_state [VDict (<["url" := VStr "https://example.com"]> ∅)])
       "Error fetching articles: 'name'",
     mkWorld 3 [] []).
Proof. reflexivity. Qed.

(** C7, counterexample: a fetched page with a blank [h1] and a non-empty
    [og:title] has a discoverable title in the words of the specification, and is
    dropped. *)
Lemma empty_heading_hides_og_title :
  demo_parse (VStr "page-b")
    = Ok (mkSoup [] (Some "   ") (Some (Some "Second headline")) [text50])
  /\ spec_title_discoverable
       (mkSoup [] (Some "   ") (Some (Some "Second headline")) [text50]) = true
  /\ fetch_with_retry demo_env (VStr "https://example.com/story/b") world0
     = (Some "page-b", tick world0)
  /\ fetch_link demo_env "example.com" "https://example.com/story/b" [] world0
     = ([], tick world0)
  /\ exists final wf,
       main_async demo_env [VStr "https://example.com"] = Some (final, wf)
       /\ map (fun a => py_get a "url" VNone) (articles final)
          = [Ok (VStr "https://example.com/news/a")]
       /\ error final = EmptyString.
Proof.
  repeat split; try reflexivity.
  eexists _, _. split; [vm_compute; reflexivity|]. split; reflexivity.
Qed.

(* ===================================================================== *)
(** ** C8: the summarizer degrades to a placeholder *)
(* ===================================================================== *)

Lemma truncate_content_str s : exists s1, truncate_content (VStr s) = Ok (VStr s1).
Proof.
  unfold truncate_content. cbn [py_len res_bind].
  destruct (max_chars <? String.length s)%nat; eauto.
Qed.

(** The content read by [get_llm_summary] once the two guards are passed. *)
Lemma truthy_content a :
  text_content a -> truthy (dict_get a "content" VNone) = true ->
  exists s, a !! "content" = Some (VStr s).
Proof.
  unfold dict_get. intros Ht Hv.
  destruct (a !! "content") as [v|] eqn:E; [|done].
  destruct (Ht v E Hv) as [s ->]. eauto.
Qed.

Lemma get_llm_summary_no_key env a model w :
  api_key_missing env = true ->
  get_llm_summary env a model w = (Ok (VStr no_key_text), w).
Proof. intros H. unfold get_llm_summary. by rewrite H. Qed.

Lemma get_llm_summary_no_content env a model w :
  api_key_missing env = false ->
  truthy (dict_get a "content" VNone) = false ->
  get_llm_summary env a model w = (Ok (VStr no_content_text), w).
Proof. intros Hk Hc. unfold get_llm_summary. by rewrite Hk, Hc. Qed.

(** Past the guards, on a textual content, the function is its request. *)
Lemma get_llm_summary_request env a model w :
  text_content a ->
  api_key_missing env = false ->
  truthy (dict_get a "content" VNone) = true ->
  exists m p,
    get_llm_summary env a model w =
    match (result <- llm_post env (requests w) m p ;; first_choice_content result) with
    | Ok summary =>
        if negb (truthy summary) then (Ok (VStr empty_reply_text), tick w)
        else (Ok summary, tick w)
    | Raise e => (Ok (VStr (failed_text e)), tick w)
    end.
Proof.
  intros Ht Hk Hc. unfold get_llm_summary. rewrite Hk, Hc. cbn [negb].
  destruct (truthy_content a Ht Hc) as [s Hs].
  unfold dict_item. rewrite Hs. cbn [res_bind].
  destruct (truncate_content_str s) as [s1 ->].
  eexists _, _. reflexivity.
Qed.

Lemma get_llm_summary_total env a model w :
  text_content a ->
  exists v w1,
    get_llm_summary env a model w = (Ok v, w1) /\
    (placeholder v
     \/ exists m p reply,
          llm_post env (requests w) m p = Ok reply
          /\ first_choice_content reply = Ok v /\ truthy v = true).
Proof.
  intros Ht.
  destruct (api_key_missing env) eqn:Hk.
  { rewrite get_llm_summary_no_key by done. eexists _, _. split; [done|].
    left. by left. }
  destruct (truthy (dict_get a "content" VNone)) eqn:Hc.
  2:{ rewrite get_llm_summary_no_content by done. eexists _, _. split; [done|].
      left. right. by left. }
  destruct (get_llm_summary_request env a model w Ht Hk Hc) as (m & p & ->).
  destruct (llm_post env (requests w) m p) as [reply|e] eqn:Ep; cbn [res_bind].
  - destruct (first_choice_content reply) as [v|e] eqn:Ef.
    + destruct (truthy v) eqn:Hv; cbn [negb].
      * eexists _, _. split; [done|]. right. exists m, p, reply. done.
      * eexists _, _. split; [done|]. left. right. right. by left.
    + eexists _, _. split; [done|]. left. right. right. right. eauto.
  - eexists _, _. split; [done|]. left. right. right. right. eauto.
Qed.



Lemma error_free_summary a s :
  error_free (VDict (<["summary" := s]> a)) = error_free (VDict a).
Proof. unfold error_free, dict_get. by rewrite lookup_insert_ne. Qed.

Lemma summarize_loop_total env todo : forall acc w,
  Forall summarizable todo ->
  exists arts w1,
    summarize_loop env todo acc w
      = (arts, Ok (acc ++ List.filter error_free arts)%list, w1)
    /\ Forall2 (summarized env) todo arts.
Proof.
  induction todo as [|v todo IH]; intros acc w H.
  - exists [], w. cbn. by rewrite app_nil_r.
  - apply Forall_cons in H as [(a & -> & Ht) H]. cbn [summarize_loop].
    destruct (truthy (dict_get a "error" VNone)) eqn:He.
    + destruct (IH acc w H) as (arts & w1 & -> & HF).
      exists (VDict a :: arts), w1. split.
      * cbn [List.filter error_free]. by rewrite He.
      * constructor; [|done]. left. split; [|done]. cbn. by rewrite He.
    + destruct (get_llm_summary_total env a None w Ht) as (s & w1 & Hs & _).
      rewrite Hs.
      destruct (IH (acc ++ [VDict (<["summary" := s]> a)])%list w1 H)
        as (arts & w2 & -> & HF).
      exists (VDict (<["summary" := s]> a) :: arts), w2. split.
      * cbn [List.filter]. rewrite error_free_summary. cbn [error_free].
        rewrite He. cbn [negb]. by rewrite <- app_assoc.
      * constructor; [|done]. right. exists a, s, w, w1.
        split; [done|]. split; [cbn; by rewrite He|]. split; [done|].
        split; [done|]. rewrite error_free_summary. cbn. by rewrite He.
Qed.






(* ===================================================================== *)
(** ** Further properties: fetching with retries *)
(* ===================================================================== *)

Lemma fetch_attempts_requests env n url : forall w,
  match (fetch_attempts env n url w).1 with
  | Some body =>
      exists i, i < n
        /\ requests (fetch_attempts env n url w).2 = requests w + S i
        /\ http_get env (requests w + i) url = Http200 body
        /\ forall j, j < i -> http_get env (requests w + j) url = HttpFail
  | None =>
      requests (fetch_attempts env n url w).2 = requests w + n
      /\ forall j, j < n -> http_get env (requests w + j) url = HttpFail
  end.
Proof.
  induction n as [|n IH]; intros w; cbn [fetch_attempts].
  - cbn [fst snd]. split; [lia|]. intros j Hj. lia.
  - destruct (http_get env (requests w) url) as [body|] eqn:E; cbn [fst snd].
    + exists 0. rewrite Nat.add_0_r. cbn [requests tick].
      repeat split; [lia | lia | done |]. intros j Hj. lia.
    + specialize (IH (tick w)).
      destruct (fetch_attempts env n url (tick w)) as [[body|] w1]; cbn [fst snd] in *.
      * destruct IH as (i & Hi & Hr & Hok & Hfail). exists (S i).
        cbn [requests tick] in *. repeat split; [lia | lia | |].
        -- by replace (requests w + S i) with (S (requests w) + i) by lia.
        -- intros [|j] Hj; [by rewrite Nat.add_0_r|].
           replace (requests w + S j) with (S (requests w) + j) by lia.
           apply Hfail. lia.
      * destruct IH as (Hr & Hfail). cbn [requests tick] in *. split; [lia|].
        intros [|j] Hj; [by rewrite Nat.add_0_r|].
        replace (requests w + S j) with (S (requests w) + j) by lia.
        apply Hfail. lia.
Qed.

(** X1. [fetch_with_retry] on a string URL issues at most three requests.
    It returns a body exactly when one of the first three answers has status
    200: the body of the first such answer, with no request after it. It
    returns [None] after exactly three requests that all failed. On a URL
    that is not a string it returns [None] without any request. *)
Theorem fetch_with_retry_bounded env url w :
  match url with
  | VStr u =>
      match (fetch_with_retry env url w).1 with
      | Some body =>
          exists i, i < 3
            /\ requests (fetch_with_retry env url w).2 = requests w + S i
            /\ http_get env (requests w + i) u = Http200 body
            /\ forall j, j < i -> http_get env (requests w + j) u = HttpFail
      | None =>
          requests (fetch_with_retry env url w).2 = requests w + 3
          /\ forall j, j < 3 -> http_get env (requests w + j) u = HttpFail
      end
  | _ => fetch_with_retry env url w = (None, w)
  end.
Proof.
  destruct url; try reflexivity.
  unfold fetch_with_retry. apply fetch_attempts_requests.
Qed.

(* ===================================================================== *)
(** ** Further properties: links and titles *)
(* ===================================================================== *)

Lemma append_nil (b : string) : EmptyString ++ b = b.
Proof. reflexivity. Qed.

Lemma append_cons c (a b : string) : String c a ++ b = String c (a ++ b).
Proof. reflexivity. Qed.

Lemma string_length_app (a b : string) :
  String.length (a ++ b) = String.length a + String.length b.
Proof.
  induction a as [|c a IH]; [done|].
  rewrite append_cons. cbn [String.length]. by rewrite IH.
Qed.

Lemma drop_app_length (a b : string) : PyStr.drop (String.length a) (a ++ b) = b.
Proof.
  induction a as [|c a IH]; [by destruct b|].
  rewrite append_cons. exact IH.
Qed.

Lemma endswith_app_slash b : PyStr.endswith "/" (b ++ "/") = true.
Proof.
  unfold PyStr.endswith. rewrite string_length_app. cbn [String.length].
  replace (String.length b + 1 - 1) with (String.length b) by lia.
  rewrite drop_app_length.
  apply andb_true_iff. split.
  - apply Nat.leb_le. lia.
  - reflexivity.
Qed.

Lemma string_app_assoc (a b c : string) : (a ++ b) ++ c = a ++ (b ++ c).
Proof.
  induction a as [|x a IH]; [done|]. by rewrite !append_cons, IH.
Qed.

(** X2. A reference that starts with a slash is appended to the base URL:
    with its own slash dropped when the base ends with a slash, as it is
    otherwise. So a base that does not end with a slash and the same base
    with a slash added resolve such a reference to the same string. What
    follows the first slash of the reference is copied as it is, a second
    slash included, and a reference that does not start with a slash is left
    unchanged, whatever the base URL. *)
Theorem resolve_href_slash base rest :
  resolve_href base ("/" ++ rest)
    = (if PyStr.endswith "/" base then base ++ rest else base ++ "/" ++ rest)
  /\ (if PyStr.endswith "/" base then True
      else resolve_href (base ++ "/") ("/" ++ rest) = resolve_href base ("/" ++ rest))
  /\ resolve_href (base ++ "/") ("//" ++ rest) = base ++ "//" ++ rest
  /\ forall href, PyStr.startswith "/" href = false ->
                  resolve_href base href = href.
Proof.
  assert (Hs : forall r, PyStr.startswith "/" ("/" ++ r) = true).
  { intros r. change (PyStr.startswith "/" ("/" ++ r)) with (String.prefix "" r).
    by destruct r. }
  assert (Hadd : forall r, resolve_href (base ++ "/") ("/" ++ r) = base ++ "/" ++ r).
  { intros r. unfold resolve_href. rewrite Hs, endswith_app_slash.
    change (PyStr.drop 1 ("/" ++ r)) with r. by rewrite string_app_assoc. }
  split; [|split; [|split]].
  - unfold resolve_href. rewrite Hs.
    by destruct (PyStr.endswith "/" base).
  - destruct (PyStr.endswith "/" base) eqn:Hb; [done|].
    rewrite Hadd. unfold resolve_href. by rewrite Hs, Hb.
  - exact (Hadd ("/" ++ rest)).
  - intros href Hh. unfold resolve_href. by rewrite Hh.
Qed.

Lemma resolve_href_slash_witness :
  resolve_href "https://example.com/" "/news/a" = "https://example.com/news/a"
  /\ resolve_href "https://example.com" "/news/a" = "https://example.com/news/a"
  /\ resolve_href "https://example.com" "//cdn.example.com/story/b"
     = "https://example.com//cdn.example.com/story/b"
  /\ resolve_href "https://example.com" "news/a" = "news/a".
Proof.
  split; [exact (proj1 (resolve_href_slash "https://example.com/" "news/a"))|].
  split; [exact (proj1 (resolve_href_slash "https://example.com" "news/a"))|].
  split; [exact (proj1 (resolve_href_slash "https://example.com"
                          "/cdn.example.com/story/b"))|].
  exact (proj2 (proj2 (proj2 (resolve_href_slash "https://example.com" "")))
           "news/a" eq_refl).
Defined.

(** X3. The links returned by [extract_article_links] are the resolved
    references that pass the filter, each kept at its first occurrence and in
    the order of the page; the list has no duplicate and each of its
    elements passes the filter. *)
Theorem extract_article_links_spec soup base_url :
  extract_article_links soup base_url
    = first_occurrences []
        (List.filter likely_article (map (resolve_href base_url) (soup_hrefs soup)))
  /\ NoDup (extract_article_links soup base_url)
  /\ Forall (fun l => likely_article l = true) (extract_article_links soup base_url).
Proof.
  unfold extract_article_links. split; [|split].
  - by rewrite links_loop_first_occurrences.
  - apply links_loop_NoDup. constructor.
  - apply links_loop_likely. constructor.
Qed.

Lemma lstrip_head s :
  PyStr.lstrip s = EmptyString
  \/ exists c r, PyStr.lstrip s = String c r /\ PyStr.is_space c = false.
Proof.
  induction s as [|c s IH]; cbn [PyStr.lstrip]; [by left|].
  destruct (PyStr.is_space c) eqn:E; [done|]. right. eauto.
Qed.

Lemma rstrip_cons c s :
  PyStr.rstrip (String c s) =
  match PyStr.rstrip s with
  | EmptyString => if PyStr.is_space c then EmptyString else String c EmptyString
  | r => String c r
  end.
Proof. reflexivity. Qed.

Lemma rstrip_idem s : PyStr.rstrip (PyStr.rstrip s) = PyStr.rstrip s.
Proof.
  induction s as [|c s IH]; [done|]. rewrite rstrip_cons.
  destruct (PyStr.rstrip s) as [|c1 r] eqn:E.
  - destruct (PyStr.is_space c) eqn:Ec; [done|].
    rewrite rstrip_cons. cbn [PyStr.rstrip]. by rewrite Ec.
  - by rewrite rstrip_cons, IH.
Qed.

Lemma rstrip_head c r :
  PyStr.is_space c = false -> exists r1, PyStr.rstrip (String c r) = String c r1.
Proof.
  intros Hc. rewrite rstrip_cons.
  destruct (PyStr.rstrip r); [rewrite Hc|]; eauto.
Qed.

Lemma strip_idem s : PyStr.strip (PyStr.strip s) = PyStr.strip s.
Proof.
  unfold PyStr.strip.
  destruct (lstrip_head s) as [-> | (c & r & -> & Hc)]; [done|].
  destruct (rstrip_head c r Hc) as [r1 Hr]. rewrite Hr.
  cbn [PyStr.lstrip]. rewrite Hc, <- Hr. apply rstrip_idem.
Qed.

(** X4. A title returned by [extract_title] has no white space at either
    end: stripping it again changes nothing. The function returns [None]
    exactly when the page has neither an [h1] nor an [og:title] meta. *)
Theorem extract_title_stripped soup :
  match extract_title soup with
  | Some title => PyStr.strip title = title
  | None => True
  end
  /\ (extract_title soup = None
      <-> soup_h1 soup = None /\ soup_og_title soup = None).
Proof.
  unfold extract_title.
  destruct (soup_h1 soup) as [text|].
  - split; [apply strip_idem|]. split; [done | by intros [? _]].
  - destruct (soup_og_title soup) as [content|].
    + split; [apply strip_idem|]. split; [done | by intros [_ ?]].
    + done.
Qed.

(* ===================================================================== *)
(** ** Further properties: what the fetch stage hands over *)
(* ===================================================================== *)

Lemma slice_to_length {A} (n : Z) (l : list A) :
  (0 <= n)%Z -> length (slice_to n l) <= Z.to_nat n.
Proof.
  intros Hn. unfold slice_to.
  destruct (Z.leb_spec 0 n); [|lia]. rewrite length_take. lia.
Qed.

Lemma slice_to_Forall {A} (P : A -> Prop) (n : Z) (l : list A) :
  Forall P l -> Forall P (slice_to n l).
Proof. intros H. unfold slice_to. destruct (0 <=? n)%Z; by apply Forall_take. Qed.

Lemma fetch_link_length env name link arts w :
  length (fetch_link env name link arts w).1 <= length arts + 1.
Proof.
  unfold fetch_link.
  destruct (fetch_with_retry env (VStr link) w) as [[h|] w1]; cbn [fst]; [|lia].
  destruct (PyStr.is_empty h); cbn [fst]; [lia|].
  destruct (bs4_parse env (VStr h)) as [soup|e]; cbn [fst]; [|lia].
  destruct (extract_title soup) as [t|]; cbn [fst]; [|lia].
  destruct (PyStr.is_empty t); cbn [fst]; [lia|].
  rewrite length_app. cbn [length]. lia.
Qed.

Lemma fetch_links_length env name links : forall arts w,
  length (fetch_links env name links arts w).1 <= length arts + length links.
Proof.
  induction links as [|l links IH]; intros arts w; cbn [fetch_links length fst]; [lia|].
  pose proof (fetch_link_length env name l arts w) as H1.
  destruct (fetch_link env name l arts w) as [a1 w1]; cbn [fst] in H1.
  specialize (IH a1 w1). lia.
Qed.

Lemma fetch_source_length env max u name arts w :
  (0 <= max)%Z ->
  length (fetch_source env max u name arts w).1 <= length arts + Z.to_nat max.
Proof.
  intros Hmax. unfold fetch_source.
  destruct (fetch_with_retry env (VStr u) w) as [[h|] w1]; cbn [fst]; [|lia].
  destruct (PyStr.is_empty h); cbn [fst]; [lia|].
  destruct (bs4_parse env (VStr h)) as [soup|e]; cbn [fst]; [|lia].
  pose proof (fetch_links_length env name
                (slice_to max (extract_article_links soup u)) arts w1) as H1.
  pose proof (slice_to_length max (extract_article_links soup u) Hmax) as H2.
  lia.
Qed.

Lemma fetch_sources_length env max srcs : forall arts w found w1,
  (0 <= max)%Z ->
  fetch_sources env max srcs arts w = (Ok found, w1) ->
  length found <= length arts + length srcs * Z.to_nat max.
Proof.
  induction srcs as [|s srcs IH]; intros arts w found w1 Hmax; cbn [fetch_sources].
  - intros [= <- <-]. cbn [length]. lia.
  - destruct s; try done.
    destruct (source_name_of s) as [name|e]; [|done].
    pose proof (fetch_source_length env max s name arts w Hmax) as H1.
    destruct (fetch_source env max s name arts w) as [a1 w2]; cbn [fst] in H1.
    intros H. apply IH in H; [|done]. cbn [length]. lia.
Qed.

Lemma rename_sources_length srcs arts : forall found,
  rename_sources srcs arts = Ok found -> length found = length arts.
Proof.
  induction arts as [|a arts IH]; intros found; cbn [rename_sources].
  - by intros [= <-].
  - destruct (rename_source srcs a) as [a1|e]; [|done]. cbn [res_bind].
    destruct (rename_sources srcs arts) as [r|e]; [|done]. cbn [res_bind].
    intros [= <-]. cbn [length]. by rewrite (IH r).
Qed.

Lemma source_urls_of_length srcs : forall urls,
  source_urls_of srcs = Ok urls -> length urls = length srcs.
Proof.
  induction srcs as [|s srcs IH]; intros urls; cbn [source_urls_of].
  - by intros [= <-].
  - destruct (dict_item s "url") as [u|e]; [|done]. cbn [res_bind].
    destruct (source_urls_of srcs) as [r|e]; [|done]. cbn [res_bind].
    intros [= <-]. cbn [length]. by rewrite (IH r).
Qed.

Lemma normalize_sources_length srcs : forall acc sl,
  normalize_sources srcs acc = SourcesOk sl ->
  length sl = length acc + length srcs.
Proof.
  induction srcs as [|v srcs IH]; intros acc sl; cbn [normalize_sources].
  - intros [= <-]. cbn [length]. lia.
  - destruct v as [| | |s| |d]; try done.
    + destruct (PyStr.split "//" s) as [|p0 [|p1 ps]]; try done.
      intros H. apply IH in H. rewrite length_app in H. cbn [length] in *. lia.
    + destruct (bool_decide _); [|done].
      intros H. apply IH in H. rewrite length_app in H. cbn [length] in *. lia.
Qed.

Lemma fetch_stage_length env srcs w :
  (0 <= MAX_ARTICLES_PER_SOURCE env)%Z ->
  length (articles (fetch_articles_async env (initial_state srcs) w).1)
    <= length srcs * Z.to_nat (MAX_ARTICLES_PER_SOURCE env).
Proof.
  intros Hmax. unfold fetch_articles_async. cbn [sources initial_state].
  destruct srcs as [|v srcs]; [cbn; lia|].
  destruct (normalize_sources (v :: srcs) []) as [sl|bad|e] eqn:En;
    [|cbn [fst articles set_error initial_state length]; lia..].
  apply normalize_sources_length in En. cbn [length] in En.
  unfold batch_process_sources, fetch_articles.
  destruct (source_urls_of sl) as [urls|e] eqn:Eu;
    [|cbn [fst articles set_error initial_state length]; lia].
  apply source_urls_of_length in Eu.
  destruct (fetch_sources env (MAX_ARTICLES_PER_SOURCE env) urls [] w)
    as [[l|e] w1] eqn:Ef;
    [|cbn [fst articles set_error initial_state length]; lia].
  apply fetch_sources_length in Ef; [|done]. cbn [length] in *.
  destruct (rename_sources sl l) as [found|e] eqn:Er;
    [|cbn [fst articles set_error initial_state length]; lia].
  apply rename_sources_length in Er.
  assert (length (map VDict found) <= length (v :: srcs)
                                      * Z.to_nat (MAX_ARTICLES_PER_SOURCE env)).
  { rewrite length_map. cbn [length]. nia. }
  by destruct found.
Qed.

(** X5. With a non-negative [MAX_ARTICLES_PER_SOURCE], the fetch node of a
    run leaves at most that many articles per configured source in the
    state. *)
Theorem articles_per_source_cap env srcs w :
  (0 <= MAX_ARTICLES_PER_SOURCE env)%Z ->
  length (articles (fetch_articles_async env (initial_state srcs) w).1)
    <= length srcs * Z.to_nat (MAX_ARTICLES_PER_SOURCE env).
Proof. apply fetch_stage_length. Qed.

Lemma articles_per_source_cap_witness :
  length (articles (fetch_articles_async demo_env
                      (initial_state [VStr "https://example.com"]) world0).1) <= 2.
Proof.
  apply (articles_per_source_cap demo_env [VStr "https://example.com"] world0).
  vm_compute. discriminate.
Defined.

Lemma new_article_fetched link title html name :
  likely_article link = true -> title <> EmptyString -> html <> EmptyString ->
  fetched (new_article link title html name).
Proof.
  intros Hl Ht Hh. unfold fetched, new_article.
  split; [exists link; split; [reflexivity | done]|].
  split; [exists title; split; [reflexivity | done]|].
  split; [exists html; split; [reflexivity | done]|].
  split; [eexists; reflexivity|]. repeat split; reflexivity.
Qed.

Lemma fetch_link_fetched env name link arts w :
  likely_article link = true ->
  Forall fetched arts -> Forall fetched (fetch_link env name link arts w).1.
Proof.
  intros Hl H. unfold fetch_link.
  destruct (fetch_with_retry env (VStr link) w) as [[h|] w1]; [|done].
  destruct (PyStr.is_empty h) eqn:Eh; [done|].
  destruct (bs4_parse env (VStr h)) as [soup|e]; [|done].
  destruct (extract_title soup) as [t|]; [|done].
  destruct (PyStr.is_empty t) eqn:Et; [done|]. cbn [fst].
  apply Forall_app. split; [done|].
  apply Forall_singleton, new_article_fetched; [done | |]; by apply is_empty_false.
Qed.

Lemma fetch_links_fetched env name links : forall arts w,
  Forall (fun l => likely_article l = true) links ->
  Forall fetched arts -> Forall fetched (fetch_links env name links arts w).1.
Proof.
  induction links as [|l links IH]; intros arts w Hl H; [done|].
  apply Forall_cons in Hl as [Hl0 Hl]. cbn [fetch_links].
  pose proof (fetch_link_fetched env name l arts w Hl0 H) as H1.
  destruct (fetch_link env name l arts w) as [a1 w1]. by apply IH.
Qed.

Lemma fetch_source_fetched env max u name arts w :
  Forall fetched arts -> Forall fetched (fetch_source env max u name arts w).1.
Proof.
  intros H. unfold fetch_source.
  destruct (fetch_with_retry env (VStr u) w) as [[h|] w1]; [|done].
  destruct (PyStr.is_empty h); [done|].
  destruct (bs4_parse env (VStr h)) as [soup|e]; [|done].
  apply fetch_links_fetched; [|done].
  apply slice_to_Forall. unfold extract_article_links.
  apply links_loop_likely. constructor.
Qed.

Lemma fetch_sources_fetched env max srcs : forall arts w found w1,
  Forall fetched arts ->
  fetch_sources env max srcs arts w = (Ok found, w1) ->
  Forall fetched found.
Proof.
  induction srcs as [|s srcs IH]; intros arts w found w1 H; cbn [fetch_sources].
  - by intros [= <- <-].
  - destruct s; try done.
    destruct (source_name_of s) as [name|e]; [|done].
    pose proof (fetch_source_fetched env max s name arts w H) as H1.
    destruct (fetch_source env max s name arts w) as [a1 w2]. by apply IH.
Qed.

Lemma rename_source_fetched srcs : forall a a1,
  fetched a -> rename_source srcs a = Ok a1 -> fetched a1.
Proof.
  induction srcs as [|src srcs IH]; intros a a1 H; cbn [rename_source].
  - by intros [= <-].
  - destruct (dict_item a "source") as [label|e]; [|done]. cbn [res_bind].
    destruct (dict_item src "url") as [url|e]; [|done]. cbn [res_bind].
    destruct (match label with VStr l => py_str_in l url | _ => _ end) as [[|]|e];
      cbn [res_bind]; [| by apply IH | done].
    destruct (dict_item src "name") as [nm|e]; [|done]. cbn [res_bind].
    intros [= <-]. destruct H as (Hu & Ht & Hh & Hs & Hc & He & Hsum).
    unfold fetched. rewrite !lookup_insert_ne by done.
    rewrite lookup_insert_eq.
    split; [done|]. split; [done|]. split; [done|]. split; [by eexists|].
    by rewrite !lookup_insert_ne.
Qed.

Lemma rename_sources_fetched srcs arts : forall found,
  Forall fetched arts -> rename_sources srcs arts = Ok found -> Forall fetched found.
Proof.
  induction arts as [|a arts IH]; intros found H; cbn [rename_sources].
  - by intros [= <-].
  - apply Forall_cons in H as [Ha H].
    destruct (rename_source srcs a) as [a1|e] eqn:Er; [|done]. cbn [res_bind].
    destruct (rename_sources srcs arts) as [r|e]; [|done]. cbn [res_bind].
    intros [= <-]. constructor; [by eapply rename_source_fetched | by apply IH].
Qed.

Lemma batch_process_sources_fetched env srcs max w found w1 :
  batch_process_sources env srcs max w = (Ok found, w1) -> Forall fetched found.
Proof.
  unfold batch_process_sources, fetch_articles.
  destruct (source_urls_of srcs) as [urls|e]; [|done].
  destruct (fetch_sources env max urls [] w) as [[l|e] w3] eqn:E; [|done].
  intros [= Hr <-]. eapply rename_sources_fetched; [|exact Hr].
  eapply fetch_sources_fetched; [|exact E]. constructor.
Qed.

Lemma fetch_stage_articles env srcs w :
  let s1 := (fetch_articles_async env (initial_state srcs) w).1 in
  Forall fetched_item (articles s1)
  /\ (error s1 = EmptyString <-> articles s1 <> [])
  /\ summaries s1 = [] /\ email_sent s1 = false /\ sources s1 = srcs.
Proof.
  unfold fetch_articles_async. cbn [sources initial_state].
  destruct srcs as [|v srcs]; [by cbn|].
  destruct (normalize_sources (v :: srcs) []) as [sl|bad|e]; [|by cbn..].
  destruct (batch_process_sources env sl (MAX_ARTICLES_PER_SOURCE env) w)
    as [[found|e] w1] eqn:Eb; [|by cbn].
  apply batch_process_sources_fetched in Eb.
  destruct found as [|a found]; [by cbn|].
  cbn [fst articles set_articles error summaries email_sent sources map].
  split; [|done].
  apply Forall_cons in Eb as [Ha Hf].
  constructor; [by exists a|].
  apply Forall_fmap. eapply Forall_impl; [exact Hf|]. intros x Hx. by exists x.
Qed.


(* ===================================================================== *)
(** ** Further properties: markup already fetched, markup missing *)
(* ===================================================================== *)

Lemma obtain_html_present env a w :
  truthy (dict_get a "html" VNone) = true ->
  obtain_html env a w = (Ok (Some (dict_get a "html" VNone)), w).
Proof.
  intros H. unfold obtain_html. rewrite H. cbn [negb].
  unfold dict_item, dict_get in *.
  destruct (a !! "html"); [done|]. discriminate H.
Qed.

Lemma extract_with_markup_world env a w :
  truthy (dict_get a "html" VNone) = true ->
  (extract_article_content env (VDict a) w).2 = w.
Proof.
  intros H. unfold extract_article_content.
  rewrite (obtain_html_present env a w H).
  destruct (bs4_parse env _); [|done].
  by destruct (_ || _).
Qed.

(** X7. An item that carries markup is processed from that markup: no
    request is issued, whatever the markup and whatever the outcome. *)
Theorem extract_reuses_markup env a w :
  truthy (dict_get a "html" VNone) = true ->
  (extract_article_content env (VDict a) w).2 = w.
Proof. apply extract_with_markup_world. Qed.

Lemma extract_reuses_markup_witness :
  (extract_article_content demo_env
     (VDict (new_article "https://example.com/news/a" "First headline" "page-a"
               "example.com")) world0).2 = world0.
Proof. apply extract_reuses_markup. reflexivity. Defined.

(** X8. An item without markup is fetched from its [url]. Without a [url]
    the item gets the error of the missing key and no request is issued; when
    the fetch gives nothing, or an empty body, the item gets the error "Failed
    to fetch article content"; otherwise the body that came back is what is
    parsed. *)
Theorem extract_without_markup env a w :
  truthy (dict_get a "html" VNone) = false ->
  match a !! "url" with
  | None =>
      extract_article_content env (VDict a) w
      = (Ok (<["error" := VStr "Error extracting content: 'url'"]> a), w)
  | Some url =>
      let '(html, w1) := fetch_with_retry env url w in
      match html with
      | Some (String c h) =>
          obtain_html env a w = (Ok (Some (VStr (String c h))), w1)
      | _ =>
          extract_article_content env (VDict a) w
          = (Ok (<["error" := VStr "Failed to fetch article content"]> a), w1)
      end
  end.
Proof.
  intros H. unfold extract_article_content, obtain_html, dict_item. rewrite H.
  cbn [negb]. destruct (a !! "url") as [url|]; [|reflexivity].
  destruct (fetch_with_retry env url w) as [[[|c h]|] w1]; reflexivity.
Qed.

Lemma extract_without_markup_witness :
  extract_article_content silent_env
    (VDict (<["url" := VStr "https://example.com/news/a"]> ∅)) world0
  = (Ok (<["error" := VStr "Failed to fetch article content"]>
           (<["url" := VStr "https://example.com/news/a"]> ∅)),
     mkWorld 3 [] []).
Proof.
  exact (extract_without_markup silent_env
           (<["url" := VStr "https://example.com/news/a"]> ∅) world0 eq_refl).
Defined.

Lemma gather_reuses_markup env arts : forall w,
  Forall fetched_item arts -> (gather env arts w).2 = w.
Proof.
  induction arts as [|v arts IH]; intros w H; [done|].
  apply Forall_cons in H as [(a & -> & Ha) H]. cbn [gather].
  assert (Hw : (extract_article_content env (VDict a) w).2 = w).
  { apply extract_with_markup_world.
    destruct Ha as (_ & _ & (html & Hh & Hne) & _).
    unfold dict_get. rewrite Hh. cbn. by destruct html. }
  destruct (extract_article_content env (VDict a) w) as [r w1]. cbn [snd] in Hw.
  subst w1. specialize (IH w H).
  destruct (gather env arts w) as [rs w2]. by cbn [snd] in *.
Qed.

Lemma extract_content_async_fetched env state w :
  Forall fetched_item (articles state) ->
  (extract_content_async env state w).2 = w.
Proof.
  intros Hf. unfold extract_content_async, batch_process_articles.
  destruct (articles state) as [|v arts] eqn:Ea.
  - by destruct (PyStr.is_empty _).
  - pose proof (gather_reuses_markup env (v :: arts) w Hf) as Hg.
    by destruct (gather env (v :: arts) w) as [rs w1].
Qed.

(** X9. In a run, the [extract_content] node issues no request: every
    article it receives carries the markup that the fetch node downloaded. *)
Theorem extract_stage_no_request env srcs w0 w :
  let s1 := (fetch_articles_async env (initial_state srcs) w0).1 in
  (extract_content_async env s1 w).2 = w.
Proof.
  cbv zeta. apply extract_content_async_fetched.
  apply (fetch_stage_articles env srcs w0).
Qed.

(* ===================================================================== *)
(** ** Further properties: the articles of a run *)
(* ===================================================================== *)

Lemma extract_fetched env a w res w1 :
  fetched a ->
  extract_article_content env (VDict a) w = (Ok res, w1) ->
  extracted (VDict res).
Proof.
  intros (_ & _ & _ & _ & Hc & He & Hs) Hx.
  destruct (extract_article_content_cases env a w)
    as (w2 & _ & [(c & Hx1 & Hlen) | (e & Hx1 & Hne)]);
    rewrite Hx1 in Hx; injection Hx as <- <-.
  - eexists. split; [reflexivity|]. split; [by rewrite lookup_insert_ne|].
    left. exists c. rewrite lookup_insert_eq, lookup_insert_ne by done. done.
  - eexists. split; [reflexivity|]. split; [by rewrite lookup_insert_ne|].
    right. exists e. rewrite lookup_insert_eq, lookup_insert_ne by done. done.
Qed.

Lemma filter_is_dict_fetched arts :
  Forall fetched_item arts -> List.filter is_dict arts = arts.
Proof.
  induction 1 as [|v arts (a & -> & _) _ IH]; [done|].
  cbn [List.filter is_dict]. by rewrite IH.
Qed.

Lemma batch_process_articles_extracted env arts w :
  Forall fetched_item arts ->
  Forall extracted (map VDict (batch_process_articles env arts w).1)
  /\ length (batch_process_articles env arts w).1 = length arts.
Proof.
  intros H. unfold batch_process_articles.
  pose proof (gather_results env arts w) as HF.
  rewrite (filter_is_dict_fetched arts H) in HF.
  destruct (gather env arts w) as [rs w1]. cbn [fst] in *.
  split; [|symmetry; by eapply Forall2_length].
  apply Forall_fmap. revert H.
  induction HF as [|v res arts0 rs0 (w0 & w2 & Hx) _ IH]; intros H; [constructor|].
  apply Forall_cons in H as [(a & -> & Ha) H].
  constructor; [|by apply IH].
  by eapply extract_fetched.
Qed.

Lemma extracted_summarizable v : extracted v -> summarizable v.
Proof.
  intros (a & -> & _ & [(c & Hc & _) | (e & _ & _ & Hc)]);
    exists a; (split; [done|]); intros x Hx _.
  - rewrite Hc in Hx. injection Hx as <-. eauto.
  - rewrite Hc in Hx. discriminate Hx.
Qed.

Lemma placeholder_truthy v : placeholder v -> truthy v = true.
Proof. intros [-> | [-> | [-> | [e ->]]]]; reflexivity. Qed.

Lemma summarized_finished env v v1 :
  extracted v -> summarized env v v1 -> finished v1.
Proof.
  intros Hex [[Hfree ->] | (a & s & w0 & w1 & -> & Hfree & Hs & -> & _)].
  - destruct Hex as (a & -> & Hsum & [(c & Hc & Hlen & He) | (e & He & Hne & Hc)]).
    + cbn in Hfree. unfold dict_get in Hfree. by rewrite He in Hfree.
    + exists a. split; [done|]. right. exists e. done.
  - pose proof (extracted_summarizable _ Hex) as (a0 & [= <-] & Ht).
    destruct Hex as (a0 & [= <-] & Hsum & [(c & Hc & Hlen & He) | (e & He & Hne & Hc)]).
    + eexists. split; [reflexivity|]. left. exists c, s.
      rewrite lookup_insert_eq, !lookup_insert_ne by done.
      repeat split; try done.
      destruct (get_llm_summary_total env a None w0 Ht) as (s1 & w2 & Hs1 & Hv).
      rewrite Hs in Hs1. injection Hs1 as <- <-.
      destruct Hv as [Hp | (m & p & reply & _ & _ & Hv)]; [|done].
      by apply placeholder_truthy.
    + cbn in Hfree. unfold dict_get in Hfree. rewrite He in Hfree. cbn in Hfree.
      destruct e; [done | discriminate Hfree].
Qed.

Lemma Forall2_finished env arts arts1 :
  Forall extracted arts -> Forall2 (summarized env) arts arts1 ->
  Forall finished arts1.
Proof.
  intros H HF. revert H.
  induction HF as [|v v1 arts0 arts2 Hs _ IH]; intros H; [constructor|].
  apply Forall_cons in H as [Hv H].
  constructor; [by eapply summarized_finished | by apply IH].
Qed.

(** The state and world of a run when the summarize node has returned. *)
Lemma through_summarize_initial env srcs :
  let s1 := (fetch_articles_async env (initial_state srcs)
               (enter "fetch_articles" world0)).1 in
  let s3 := (through_summarize env (initial_state srcs) world0).1 in
  sources s3 = srcs /\ error s3 = error s1 /\ email_sent s3 = false
  /\ length (articles s3) = length (articles s1)
  /\ Forall finished (articles s3)
  /\ summaries s3 = List.filter error_free (articles s3).
Proof.
  cbv zeta. unfold through_summarize.
  pose proof (fetch_stage_articles env srcs (enter "fetch_articles" world0))
    as (Hf & Herr & Hsum & Hsent & Hsrc).
  cbv zeta in *.
  destruct (fetch_articles_async env (initial_state srcs) _) as [s1 w1].
  cbn [fst] in *.
  destruct (articles s1) as [|v arts] eqn:Ea.
  - assert (He : error s1 <> EmptyString).
    { intros He. apply Herr in He. done. }
    rewrite extract_content_async_noop by done.
    rewrite summarize_articles_async_noop by done. cbn [fst].
    rewrite Ea, Hsum. repeat split; done.
  - unfold extract_content_async. rewrite Ea.
    pose proof (batch_process_articles_extracted env (v :: arts)
                  (enter "extract_content" w1) Hf) as [Hex Hlen].
    destruct (batch_process_articles env (v :: arts) _) as [res w2].
    cbn [fst] in *.
    unfold summarize_articles_async. cbn [articles set_articles].
    destruct (map VDict res) as [|v2 arts2] eqn:Em.
    { apply (f_equal length) in Em. rewrite length_map, Hlen in Em. done. }
    destruct (summarize_loop_total env (v2 :: arts2) []
                (enter "summarize_articles" w2)) as (arts3 & w3 & -> & HF).
    { eapply Forall_impl; [exact Hex|]. apply extracted_summarizable. }
    cbn [fst sources error email_sent articles summaries set_summaries
         set_articles app].
    repeat split; try done.
    + rewrite <- (Forall2_length _ _ _ HF), <- Em, length_map. done.
    + by eapply Forall2_finished.
Qed.

(** X10. At the end of a run every article in the state is a dictionary
    with either a text of at least 50 characters, a summary that is not
    empty and no error, or a non-empty error and neither text nor summary;
    as many articles are there as the fetch node found, and [summaries] is
    the list of the articles without error, in the order of [articles]. *)
Theorem run_articles env srcs :
  exists final wf,
    main_async env srcs = Some (final, wf)
    /\ sources final = srcs
    /\ Forall finished (articles final)
    /\ summaries final = List.filter error_free (articles final)
    /\ length (articles final)
       = length (articles (fetch_articles_async env (initial_state srcs)
                             (enter "fetch_articles" world0)).1).
Proof.
  unfold main_async. cbv zeta. rewrite ainvoke_unfold.
  pose proof (through_summarize_initial env srcs) as (Hsrc & _ & _ & Hlen & Hfin & Hsum).
  cbv zeta in *.
  destruct (through_summarize env (initial_state srcs) world0) as [s3 w3].
  cbn [fst] in *.
  destruct (summaries s3) as [|x l] eqn:Es.
  - exists s3, w3. rewrite Es. done.
  - unfold send_notifications. rewrite Es.
    destruct (send_email_summary env (x :: l) _) as [sent w4].
    eexists _, _. split; [reflexivity|].
    cbn [sources articles summaries set_email_sent]. rewrite Es. done.
Qed.

(** X11. The error a run ends with is the one its fetch node set: it is
    empty exactly when at least one article was fetched, whatever happens to
    the articles afterwards. The run ends with [email_sent] true only if
    there are summaries and the mail was handed over, and the notifier was
    called exactly when there are summaries. *)
Theorem run_error_and_mail env srcs :
  exists final wf,
    main_async env srcs = Some (final, wf)
    /\ error final
       = error (fetch_articles_async env (initial_state srcs)
                  (enter "fetch_articles" world0)).1
    /\ (error final = EmptyString <-> articles final <> [])
    /\ mailed wf = match summaries final with [] => [] | l => [l] end
    /\ email_sent final
       = match summaries final with
         | [] => false
         | l => (send_email_summary env l
                   (enter "send_notifications"
                      (through_summarize env (initial_state srcs) world0).2)).1
         end.
Proof.
  unfold main_async. cbv zeta. rewrite ainvoke_unfold.
  pose proof (through_summarize_initial env srcs) as (_ & Herr & Hsent & Hlen & _ & _).
  pose proof (fetch_stage_articles env srcs (enter "fetch_articles" world0))
    as (_ & Hiff & _).
  cbv zeta in *.
  destruct (through_summarize env (initial_state srcs) world0) as [s3 w3] eqn:E3.
  apply through_summarize_log in E3 as [_ M3].
  cbn [fst snd mailed world0] in *.
  assert (Hiff3 : error s3 = EmptyString <-> articles s3 <> []).
  { rewrite Herr, Hiff. split; intros H Hn.
    - apply H. by apply length_zero_iff_nil; rewrite <- Hlen, Hn.
    - apply H. apply length_zero_iff_nil. by rewrite Hlen, Hn. }
  destruct (summaries s3) as [|x l] eqn:Es.
  - exists s3, w3. rewrite Es. done.
  - pose proof (send_notifications_log env s3 (enter "send_notifications" w3)) as [_ M4].
    unfold send_notifications in *. rewrite Es in *.
    destruct (send_email_summary env (x :: l) _) as [sent w4] eqn:Esend.
    eexists _, _. split; [reflexivity|].
    cbn [error articles summaries email_sent set_email_sent fst snd mailed enter] in *.
    rewrite Es, M4, M3, Esend. done.
Qed.

(* ===================================================================== *)
(** ** Further properties: the cleaned text *)
(* ===================================================================== *)

Lemma has_space_app a b : has_space (a ++ b) = has_space a || has_space b.
Proof.
  induction a as [|c a IH]; [done|].
  rewrite append_cons. cbn [has_space]. by rewrite IH, orb_assoc.
Qed.

Lemma append_snoc_cons cur c s : (cur ++ String c EmptyString) ++ s = cur ++ String c s.
Proof. by rewrite string_app_assoc. Qed.

Lemma append_empty_r (s : string) : s ++ EmptyString = s.
Proof. induction s as [|c s IH]; [done|]. by rewrite append_cons, IH. Qed.

Lemma words_go_words s : forall cur,
  has_space cur = false -> Forall word (PyStr.words_go cur s).
Proof.
  induction s as [|c s IH]; intros cur Hcur; cbn [PyStr.words_go].
  - destruct cur; [constructor|]. by repeat constructor.
  - destruct (PyStr.is_space c) eqn:Ec.
    + destruct cur; [by apply IH|].
      constructor; [done | by apply IH].
    + apply IH. rewrite has_space_app. cbn [has_space]. by rewrite Hcur, Ec.
Qed.

Lemma words_go_word w : forall cur,
  has_space w = false ->
  PyStr.words_go cur w = match cur ++ w with EmptyString => [] | x => [x] end.
Proof.
  induction w as [|c w IH]; intros cur Hw; cbn [PyStr.words_go].
  - rewrite append_empty_r. by destruct cur.
  - cbn [has_space] in Hw. apply orb_false_iff in Hw as [Hc Hw].
    rewrite Hc, IH by done. by rewrite append_snoc_cons.
Qed.

Lemma words_go_app w s : forall cur,
  has_space w = false ->
  PyStr.words_go cur (w ++ s) = PyStr.words_go (cur ++ w) s.
Proof.
  induction w as [|c w IH]; intros cur Hw.
  - by rewrite append_nil, append_empty_r.
  - cbn [has_space] in Hw. apply orb_false_iff in Hw as [Hc Hw].
    rewrite append_cons. cbn [PyStr.words_go]. rewrite Hc, IH by done.
    by rewrite append_snoc_cons.
Qed.

Lemma words_join ws :
  Forall word ws -> PyStr.words (PyStr.join " " ws) = ws.
Proof.
  unfold PyStr.words.
  induction ws as [|x ws IH]; intros H; [done|].
  apply Forall_cons in H as [[Hne Hx] H].
  destruct ws as [|y ws].
  - cbn [PyStr.join]. rewrite words_go_word by done. rewrite append_nil.
    by destruct x.
  - change (PyStr.join " " (x :: y :: ws))
      with (x ++ " " ++ PyStr.join " " (y :: ws)).
    rewrite words_go_app by done. rewrite append_nil.
    change (" " ++ PyStr.join " " (y :: ws))
      with (String " " (PyStr.join " " (y :: ws))).
    cbn [PyStr.words_go].
    change (PyStr.is_space " ") with true. cbv iota.
    destruct x; [done|]. by rewrite IH.
Qed.

(** X12. The text that [extract_article_content] computes from a page is
    a sequence of words joined by single spaces, a word being non-empty and
    free of white space: there is no white space at either end, no run of
    white space and no white space other than the space. Collapsing its white
    space again gives the same text. *)
Theorem clean_content_words soup :
  Forall word (PyStr.words (clean_content soup))
  /\ clean_content soup = PyStr.join " " (PyStr.words (clean_content soup))
  /\ exists ws, Forall word ws /\ clean_content soup = PyStr.join " " ws.
Proof.
  unfold clean_content. cbv zeta.
  set (content := PyStr.join " " (List.filter _ _)).
  assert (Hw : Forall word (PyStr.words content)).
  { apply words_go_words. reflexivity. }
  rewrite (words_join _ Hw). eauto.
Qed.

(* ===================================================================== *)
(** ** Further properties: the summarizer *)
(* ===================================================================== *)




Lemma get_llm_summary_requests env a model w :
  requests (get_llm_summary env a model w).2 <= requests w + 1.
Proof.
  unfold get_llm_summary.
  destruct (api_key_missing env); cbn [snd]; [lia|].
  destruct (negb _); cbn [snd]; [lia|].
  destruct (res_bind (dict_item a "content") _) as [c|e]; cbn [snd]; [|lia].
  destruct (res_bind (llm_post _ _ _ _) _) as [s|e]; cbn [snd requests tick]; [|lia].
  destruct (negb _); cbn [snd requests tick]; lia.
Qed.

Lemma summarize_loop_requests_le env todo : forall acc w,
  requests (summarize_loop env todo acc w).2
    <= requests w + length (List.filter error_free todo).
Proof.
  induction todo as [|v todo IH]; intros acc w; cbn [summarize_loop].
  - cbn. lia.
  - destruct v as [| | | | |a]; cbn [snd List.filter error_free length]; try lia.
    destruct (truthy (dict_get a "error" VNone)) eqn:He; cbn [negb length].
    + specialize (IH acc w).
      destruct (summarize_loop env todo acc w) as [[? ?] ?]. cbn [snd] in *. lia.
    + pose proof (get_llm_summary_requests env a None w) as H1.
      destruct (get_llm_summary env a None w) as [[s|e] w1]; cbn [snd] in *.
      * specialize (IH (acc ++ [VDict (<["summary" := s]> a)])%list w1).
        destruct (summarize_loop env todo _ w1) as [[? ?] ?].
        cbn [snd length] in *. lia.
      * cbn [length]. lia.
Qed.

(** X14. The summarize loop issues at most one request for each item
    without an error and none for the others, whether it ends or raises. *)
Theorem summarize_loop_requests env todo acc w :
  requests (summarize_loop env todo acc w).2
    <= requests w + length (List.filter error_free todo).
Proof. apply summarize_loop_requests_le. Qed.

Lemma first_choice_content_edges :
  (forall d, d !! "choices" = None -> first_choice_content (VDict d) = Ok (VStr ""))
  /\ (forall d, d !! "choices" = Some (VList []) ->
                first_choice_content (VDict d)
                = Raise (mkExn IndexError "list index out of range"))
  /\ (forall l, exists e, first_choice_content (VList l) = Raise e)
  /\ (forall v, first_choice_content (chat_reply v) = Ok v).
Proof.
  unfold first_choice_content, py_get, dict_get.
  split; [|split; [|split]].
  - intros d Hd. rewrite Hd. cbn. reflexivity.
  - intros d Hd. by rewrite Hd.
  - intros l. eexists. reflexivity.
  - intros v. reflexivity.
Qed.

(** X15. When the endpoint answers with a dictionary that has no
    [choices] key, [get_llm_summary] returns the empty-response text; when
    [choices] is an empty list it returns the failure text of the index
    error; when the reply is a list it returns a failure text. In each case
    one request was issued and nothing is raised. *)
Theorem malformed_reply_placeholder env a model w reply :
  text_content a ->
  api_key_missing env = false ->
  truthy (dict_get a "content" VNone) = true ->
  (forall m p, llm_post env (requests w) m p = Ok reply) ->
  (forall d, reply = VDict d -> d !! "choices" = None ->
             get_llm_summary env a model w = (Ok (VStr empty_reply_text), tick w))
  /\ (forall d, reply = VDict d -> d !! "choices" = Some (VList []) ->
                get_llm_summary env a model w
                = (Ok (VStr (failed_text (mkExn IndexError "list index out of range"))),
                   tick w))
  /\ (forall l, reply = VList l ->
                exists e, get_llm_summary env a model w
                          = (Ok (VStr (failed_text e)), tick w)).
Proof.
  intros Ht Hk Hc Hp.
  destruct (get_llm_summary_request env a model w Ht Hk Hc) as (m & p & ->).
  rewrite Hp. cbn [res_bind].
  destruct first_choice_content_edges as (H1 & H2 & H3 & _).
  split; [|split].
  - intros d -> Hd. by rewrite (H1 d Hd).
  - intros d -> Hd. by rewrite (H2 d Hd).
  - intros l ->. destruct (H3 l) as [e ->]. eauto.
Qed.

Lemma malformed_reply_placeholder_witness :
  get_llm_summary
    (mkEnv demo_http demo_parse (fun _ => "<object>") 2 (Some "sk-test")
       "deepseek/deepseek-chat-v3-0324:free" (fun _ _ _ => Ok (VDict ∅))
       "recipient@example.com" (Ok "Daily News Summary - 2026-01-01") 587
       (fun _ _ _ _ => true) (fun _ _ _ _ => true))
    (<["content" := VStr text50]> ∅) None world0
  = (Ok (VStr "Summary generation failed - empty response."), tick world0).
Proof.
  refine (proj1 (malformed_reply_placeholder _ (<["content" := VStr text50]> ∅)
                   None world0 (VDict ∅) _ _ _ _) ∅ eq_refl eq_refl).
  - intros v Hv _. vm_compute in Hv. injection Hv as <-. eauto.
  - reflexivity.
  - reflexivity.
  - reflexivity.
Defined.

(* ===================================================================== *)
(** ** Further properties: the requests of a run *)
(* ===================================================================== *)

Lemma fetch_with_retry_requests env url w :
  requests w <= requests (fetch_with_retry env url w).2 <= requests w + 3.
Proof.
  destruct url; try (cbn; lia).
  unfold fetch_with_retry.
  pose proof (fetch_attempts_requests env 3 s w) as H.
  destruct (fetch_attempts env 3 s w) as [[body|] w1]; cbn [fst snd] in *.
  - destruct H as (i & Hi & Hr & _). lia.
  - destruct H as (Hr & _). lia.
Qed.

Lemma fetch_link_requests env name link arts w :
  requests (fetch_link env name link arts w).2 <= requests w + 3.
Proof.
  unfold fetch_link.
  pose proof (fetch_with_retry_requests env (VStr link) w) as H.
  destruct (fetch_with_retry env (VStr link) w) as [[h|] w1]; cbn [snd] in *; [|lia].
  destruct (PyStr.is_empty h); cbn [snd]; [lia|].
  destruct (bs4_parse env (VStr h)) as [soup|e]; cbn [snd]; [|lia].
  destruct (extract_title soup) as [t|]; cbn [snd]; [|lia].
  destruct (PyStr.is_empty t); cbn [snd]; lia.
Qed.

Lemma fetch_links_requests env name links : forall arts w,
  requests (fetch_links env name links arts w).2 <= requests w + 3 * length links.
Proof.
  induction links as [|l links IH]; intros arts w; cbn [fetch_links length snd]; [lia|].
  pose proof (fetch_link_requests env name l arts w) as H1.
  destruct (fetch_link env name l arts w) as [a1 w1]; cbn [snd] in H1.
  specialize (IH a1 w1). lia.
Qed.

Lemma fetch_source_requests env max u name arts w :
  (0 <= max)%Z ->
  requests (fetch_source env max u name arts w).2
    <= requests w + 3 + 3 * Z.to_nat max.
Proof.
  intros Hmax. unfold fetch_source.
  pose proof (fetch_with_retry_requests env (VStr u) w) as H.
  destruct (fetch_with_retry env (VStr u) w) as [[h|] w1]; cbn [snd] in *; [|lia].
  destruct (PyStr.is_empty h); cbn [snd]; [lia|].
  destruct (bs4_parse env (VStr h)) as [soup|e]; cbn [snd]; [|lia].
  pose proof (fetch_links_requests env name
                (slice_to max (extract_article_links soup u)) arts w1) as H1.
  pose proof (slice_to_length max (extract_article_links soup u) Hmax) as H2.
  lia.
Qed.

Lemma fetch_sources_requests env max srcs : forall arts w,
  (0 <= max)%Z ->
  requests (fetch_sources env max srcs arts w).2
    <= requests w + length srcs * (3 + 3 * Z.to_nat max).
Proof.
  induction srcs as [|s srcs IH]; intros arts w Hmax; cbn [fetch_sources length].
  - cbn [snd]. lia.
  - destruct s; cbn [snd]; try lia.
    destruct (source_name_of s) as [name|e]; cbn [snd]; [|lia].
    pose proof (fetch_source_requests env max s name arts w Hmax) as H1.
    destruct (fetch_source env max s name arts w) as [a1 w2]; cbn [snd] in H1.
    specialize (IH a1 w2 Hmax). lia.
Qed.

Lemma fetch_articles_async_requests env srcs w :
  (0 <= MAX_ARTICLES_PER_SOURCE env)%Z ->
  requests (fetch_articles_async env (initial_state srcs) w).2
    <= requests w + length srcs * (3 + 3 * Z.to_nat (MAX_ARTICLES_PER_SOURCE env)).
Proof.
  intros Hmax. unfold fetch_articles_async. cbn [sources initial_state].
  destruct srcs as [|v srcs]; [cbn; lia|].
  destruct (normalize_sources (v :: srcs) []) as [sl|bad|e] eqn:En;
    [|cbn [snd]; lia..].
  apply normalize_sources_length in En. cbn [length] in En.
  unfold batch_process_sources, fetch_articles.
  destruct (source_urls_of sl) as [urls|e] eqn:Eu; [|cbn [snd]; lia].
  apply source_urls_of_length in Eu.
  pose proof (fetch_sources_requests env (MAX_ARTICLES_PER_SOURCE env) urls [] w Hmax) as H.
  destruct (fetch_sources env (MAX_ARTICLES_PER_SOURCE env) urls [] w)
    as [[l|e] w1]; cbn [snd length] in *; [|nia].
  destruct (rename_sources sl l) as [[|a found]|e]; cbn [snd]; nia.
Qed.

Lemma send_notifications_requests env state w :
  requests (send_notifications env state w).2 <= requests w + 1.
Proof.
  unfold send_notifications, send_email_summary, send_email.
  destruct (summaries state) as [|x l]; cbn [snd]; [lia|].
  destruct (res_bind (email_subject env) _) as [[subject body]|e];
    [|cbn; lia].
  destruct (_ =? _)%Z; cbn; lia.
Qed.

Lemma filter_length_le {A} (f : A -> bool) (l : list A) :
  length (List.filter f l) <= length l.
Proof.
  induction l as [|x l IH]; [done|]. cbn [List.filter].
  destruct (f x); cbn [length]; lia.
Qed.

(** X16. With a non-negative [MAX_ARTICLES_PER_SOURCE] of [m], a run over
    [n] sources issues at most [n * (3 + 4 * m) + 1] requests: three
    attempts for each source page and each article page, one call of the
    endpoint for each article, one mail. *)
Theorem run_requests_bound env srcs :
  (0 <= MAX_ARTICLES_PER_SOURCE env)%Z ->
  exists final wf,
    main_async env srcs = Some (final, wf)
    /\ requests wf
       <= length srcs * (3 + 4 * Z.to_nat (MAX_ARTICLES_PER_SOURCE env)) + 1.
Proof.
  intros Hmax. unfold main_async. cbv zeta. rewrite ainvoke_unfold.
  unfold through_summarize.
  pose proof (fetch_stage_articles env srcs (enter "fetch_articles" world0))
    as (Hf & _).
  pose proof (fetch_stage_length env srcs (enter "fetch_articles" world0) Hmax) as Hlen.
  pose proof (fetch_articles_async_requests env srcs (enter "fetch_articles" world0) Hmax)
    as Hr1.
  cbv zeta in *.
  destruct (fetch_articles_async env (initial_state srcs) _) as [s1 w1].
  cbn [fst snd requests enter world0] in *.
  pose proof (extract_content_async_fetched env s1 (enter "extract_content" w1) Hf) as Hw2.
  assert (Hlen2 : length (articles (extract_content_async env s1
                                      (enter "extract_content" w1)).1)
                  <= length (articles s1)).
  { unfold extract_content_async.
    destruct (articles s1) as [|v arts] eqn:Ea.
    - destruct (PyStr.is_empty _); cbn; rewrite Ea; done.
    - pose proof (batch_process_articles_extracted env (v :: arts)
                    (enter "extract_content" w1) Hf) as [_ Hl].
      destruct (batch_process_articles env (v :: arts) _) as [res w2].
      cbn [fst articles set_articles] in *. rewrite length_map. lia. }
  destruct (extract_content_async env s1 _) as [s2 w2]. cbn [fst snd] in *. subst w2.
  assert (Hr3 : requests (summarize_articles_async env s2
                            (enter "summarize_articles" (enter "extract_content" w1))).2
                <= requests w1 + length (articles s2)).
  { unfold summarize_articles_async.
    destruct (articles s2) as [|v arts] eqn:Ea; [cbn; lia|].
    pose proof (summarize_loop_requests_le env (v :: arts) []
                  (enter "summarize_articles" (enter "extract_content" w1))) as H.
    pose proof (filter_length_le error_free (v :: arts)) as Hfl.
    destruct (summarize_loop env (v :: arts) [] _) as [[a1 r] w3].
    cbn [snd requests enter] in *. destruct r; cbn [snd]; lia. }
  destruct (summarize_articles_async env s2 _) as [s3 w3]. cbn [snd] in Hr3.
  destruct (summaries s3) as [|x l] eqn:Es.
  - exists s3, w3. split; [done|]. nia.
  - pose proof (send_notifications_requests env s3 (enter "send_notifications" w3)) as Hr4.
    destruct (send_notifications env s3 _) as [s4 w4].
    exists s4, w4. split; [done|]. cbn [snd requests enter] in Hr4. nia.
Qed.

Lemma run_requests_bound_witness :
  exists final wf,
    main_async silent_env NEWS_SOURCES = Some (final, wf) /\ requests wf <= 45.
Proof. apply (run_requests_bound silent_env NEWS_SOURCES). vm_compute. discriminate. Defined.

(* ===================================================================== *)
(** ** Further properties: the mail *)
(* ===================================================================== *)

Lemma email_block_with_source env name v :
  email_block env (with_source name v) = email_block env v.
Proof.
  destruct v; try reflexivity.
  unfold email_block, with_source, py_get, dict_get. cbn [res_bind].
  by rewrite !lookup_insert_ne.
Qed.

Lemma email_blocks_with_source env name l : forall body,
  email_blocks env (map (with_source name) l) body = email_blocks env l body.
Proof.
  induction l as [|v l IH]; intros body; [done|].
  cbn [map email_blocks]. rewrite email_block_with_source.
  destruct (email_block env v); cbn [res_bind]; [apply IH | done].
Qed.

(** X17. The body of the mail does not depend on the [source] field of the
    articles: the template reads [source_name], and an article without that
    key is rendered as if its [source_name] were "Unknown", whatever its
    [source] is. *)
Theorem email_body_ignores_source env name l a :
  a !! "source_name" = None ->
  format_email_body env (map (with_source name) l) = format_email_body env l
  /\ email_block env (VDict a)
     = email_block env (VDict (<["source_name" := VStr "Unknown"]> a))
  /\ email_block env (VDict (<["source" := name]> a)) = email_block env (VDict a).
Proof.
  intros Ha. split; [|split].
  - unfold format_email_body. by rewrite email_blocks_with_source.
  - unfold email_block, py_get, dict_get. cbn [res_bind].
    by rewrite Ha, lookup_insert_eq, !lookup_insert_ne.
  - apply (email_block_with_source env name (VDict a)).
Qed.

Lemma email_body_ignores_source_witness :
  format_email_body demo_env
    [VDict (<["source" := VStr "example.com"]> (<["title" := VStr "First headline"]> ∅))]
  = format_email_body demo_env [VDict (<["title" := VStr "First headline"]> ∅)].
Proof.
  exact (proj1 (email_body_ignores_source demo_env (VStr "example.com")
                  [VDict (<["title" := VStr "First headline"]> ∅)] ∅ eq_refl)).
Defined.

Lemma email_block_dict env a : exists block, email_block env (VDict a) = Ok block.
Proof. unfold email_block, py_get. cbn [res_bind]. eauto. Qed.

Lemma email_block_other env v :
  is_dict v = false -> exists e, email_block env v = Raise e.
Proof. destruct v; intros H; try discriminate H; eexists; reflexivity. Qed.

Lemma email_blocks_total env l : forall body,
  if forallb is_dict l
  then exists out, email_blocks env l body = Ok out
  else exists e, email_blocks env l body = Raise e.
Proof.
  induction l as [|v l IH]; intros body; cbn [forallb email_blocks]; [eauto|].
  destruct (is_dict v) eqn:Hv; cbn [andb].
  - destruct v; try discriminate Hv.
    destruct (email_block_dict env d) as [block ->]. cbn [res_bind]. apply IH.
  - destruct (email_block_other env v Hv) as [e ->]. cbn [res_bind]. eauto.
Qed.

(** X18. [send_email_summary] records its call and hands the mail over at
    most once. When the subject cannot be formatted or an item of the list is
    not a dictionary, it returns [False] without any exchange with the mail
    server. Otherwise it makes exactly one exchange, over the implicit-TLS
    transport when the configured port is 465 and over STARTTLS for any other
    port, and returns whether that exchange went through. *)
Theorem send_email_summary_outcome env l w :
  match email_subject env, forallb is_dict l with
  | Ok subject, true =>
      exists body,
        format_email_body env l = Ok body
        /\ send_email_summary env l w
           = ((if (EMAIL_SMTP_PORT env =? 465)%Z
               then smtp_ssl_send env (requests w) (EMAIL_RECEIVER env) subject body
               else smtp_tls_send env (requests w) (EMAIL_RECEIVER env) subject body),
              tick (record_mail l w))
  | _, _ => send_email_summary env l w = (false, record_mail l w)
  end.
Proof.
  unfold send_email_summary, send_email, format_email_body.
  pose proof (email_blocks_total env l email_head) as H.
  destruct (email_subject env) as [subject|e]; cbn [res_bind].
  - destruct (forallb is_dict l).
    + destruct H as [out ->]. cbn [res_bind]. eexists. split; [reflexivity|].
      by destruct (_ =? _)%Z.
    + by destruct H as [e ->].
  - by destruct (forallb is_dict l).
Qed.

(* ===================================================================== *)
(** ** Further properties: sources given as URLs *)
(* ===================================================================== *)

Lemma normalize_url_sources srcs : forall acc,
  Forall url_source srcs ->
  exists sl, normalize_sources srcs acc = SourcesOk (acc ++ sl)%list
             /\ Forall plain_source sl /\ length sl = length srcs.
Proof.
  induction srcs as [|v srcs IH]; intros acc H.
  - exists []. by rewrite app_nil_r.
  - apply Forall_cons in H as [(s & -> & Hs) H]. cbn [normalize_sources].
    destruct (PyStr.split "//" s) as [|p0 [|p1 ps]] eqn:Es; cbn [length] in Hs; try lia.
    destruct (IH (acc ++ [named_source
          (if PyStr.startswith "www." (hd EmptyString (PyStr.split "/" p1))
           then PyStr.drop 4 (hd EmptyString (PyStr.split "/" p1))
           else hd EmptyString (PyStr.split "/" p1)) s])%list H)
      as (sl & -> & Hsl & Hlen).
    eexists (_ :: sl). rewrite <- app_assoc. split; [reflexivity|].
    split; [|cbn [length]; by rewrite Hlen].
    constructor; [|done]. eexists s, _. split; [reflexivity|]. rewrite Es. cbn. lia.
Qed.

Lemma source_urls_of_plain sl :
  Forall plain_source sl ->
  exists urls, source_urls_of sl = Ok urls /\ Forall url_source urls.
Proof.
  induction 1 as [|d sl (s & name & -> & Hs) _ (urls & IH & Hu)].
  - exists []. done.
  - exists (VStr s :: urls). cbn [source_urls_of].
    change (dict_item (named_source name s) "url") with (@Ok PyVal (VStr s)).
    cbn [res_bind]. rewrite IH. cbn [res_bind]. split; [done|].
    constructor; [by exists s | done].
Qed.

Lemma fetch_link_labelled env name link arts w :
  Forall labelled arts -> Forall labelled (fetch_link env name link arts w).1.
Proof.
  intros H. unfold fetch_link.
  destruct (fetch_with_retry env (VStr link) w) as [[h|] w1]; [|done].
  destruct (PyStr.is_empty h); [done|].
  destruct (bs4_parse env (VStr h)) as [soup|e]; [|done].
  destruct (extract_title soup) as [t|]; [|done].
  destruct (PyStr.is_empty t); [done|]. cbn [fst].
  apply Forall_app. split; [done|]. apply Forall_singleton. by exists name.
Qed.

Lemma fetch_links_labelled env name links : forall arts w,
  Forall labelled arts -> Forall labelled (fetch_links env name links arts w).1.
Proof.
  induction links as [|l links IH]; intros arts w H; [done|]. cbn [fetch_links].
  pose proof (fetch_link_labelled env name l arts w H) as H1.
  destruct (fetch_link env name l arts w) as [a1 w1]. by apply IH.
Qed.

Lemma fetch_sources_url_sources env max urls : forall arts w,
  Forall url_source urls -> Forall labelled arts ->
  exists found w1,
    fetch_sources env max urls arts w = (Ok found, w1) /\ Forall labelled found.
Proof.
  induction urls as [|u urls IH]; intros arts w Hu Ha.
  - exists arts, w. done.
  - apply Forall_cons in Hu as [(s & -> & Hs) Hu]. cbn [fetch_sources].
    unfold source_name_of.
    destruct (PyStr.split "//" s) as [|p0 [|p1 ps]] eqn:Es; cbn [length] in Hs; try lia.
    assert (H1 : Forall labelled
                   (fetch_source env max s
                      (PyStr.replace "www." "" (hd EmptyString (PyStr.split "/" p1)))
                      arts w).1).
    { unfold fetch_source.
      destruct (fetch_with_retry env (VStr s) w) as [[h|] w1]; [|done].
      destruct (PyStr.is_empty h); [done|].
      destruct (bs4_parse env (VStr h)) as [soup|e]; [|done].
      by apply fetch_links_labelled. }
    destruct (fetch_source env max s _ arts w) as [a1 w2]. by apply IH.
Qed.

Lemma rename_source_plain sl : forall a,
  Forall plain_source sl -> labelled a -> exists a1, rename_source sl a = Ok a1.
Proof.
  induction sl as [|d sl IH]; intros a H Ha; [by eexists|].
  apply Forall_cons in H as [(s & name & -> & _) H]. cbn [rename_source].
  destruct Ha as [l Hl]. unfold dict_item at 1. rewrite Hl. cbn [res_bind].
  change (dict_item (named_source name s) "url") with (@Ok PyVal (VStr s)).
  cbn [res_bind py_str_in].
  destruct (PyStr.contains l s).
  - change (dict_item (named_source name s) "name") with (@Ok PyVal (VStr name)).
    cbn [res_bind]. eauto.
  - apply IH; [done | by exists l].
Qed.

Lemma rename_sources_plain sl arts :
  Forall plain_source sl -> Forall labelled arts ->
  exists found, rename_sources sl arts = Ok found.
Proof.
  intros Hsl. induction 1 as [|a arts Ha _ (r & IH)]; [by eexists|].
  cbn [rename_sources].
  destruct (rename_source_plain sl a Hsl Ha) as [a1 ->]. cbn [res_bind].
  rewrite IH. cbn [res_bind]. eauto.
Qed.

(** X19. When every configured source is a string with "//" in it, as in
    [config.py], nothing raises inside the fetch node: it ends with the
    articles found and no error, or with no article and the no-articles
    message. *)
Theorem url_sources_fetch env srcs w :
  srcs <> [] ->
  Forall url_source srcs ->
  let s1 := (fetch_articles_async env (initial_state srcs) w).1 in
  (articles s1 <> [] /\ error s1 = EmptyString)
  \/ (articles s1 = [] /\ error s1 = no_articles_msg).
Proof.
  intros Hne H. cbv zeta. unfold fetch_articles_async. cbn [sources initial_state].
  destruct srcs as [|v srcs]; [done|].
  destruct (normalize_url_sources (v :: srcs) [] H) as (sl & -> & Hsl & _).
  cbn [app]. unfold batch_process_sources, fetch_articles.
  destruct (source_urls_of_plain sl Hsl) as (urls & -> & Hu).
  destruct (fetch_sources_url_sources env (MAX_ARTICLES_PER_SOURCE env) urls [] w Hu)
    as (l & w1 & -> & Hl); [constructor|].
  destruct (rename_sources_plain sl l Hsl Hl) as [found ->].
  destruct found as [|a found]; [by right | by left].
Qed.

Lemma url_sources_fetch_witness :
  let s1 := (fetch_articles_async silent_env (initial_state NEWS_SOURCES) world0).1 in
  (articles s1 <> [] /\ error s1 = EmptyString)
  \/ (articles s1 = [] /\ error s1 = no_articles_msg).
Proof.
  apply (url_sources_fetch silent_env NEWS_SOURCES world0).
  - discriminate.
  - repeat constructor; eexists; (split; [reflexivity | vm_compute; lia]).
Defined.

(* ===================================================================== *)
(** ** Further properties: the console report *)
(* ===================================================================== *)

Lemma report_article_indented env i a :
  exists lines, report_article env i (VDict a) = Ok lines /\ Forall indented lines
                /\ length lines = 3.
Proof.
  unfold report_article, py_get. cbn [res_bind]. eexists. split; [reflexivity|].
  split; [|reflexivity].
  repeat constructor; eexists; [left | right | left]; reflexivity.
Qed.

Lemma report_articles_dicts env l : forall i,
  Forall (fun v => is_dict v = true) l ->
  exists lines, report_articles env i l = (lines, None)
                /\ Forall indented lines /\ length lines = 3 * length l.
Proof.
  induction l as [|v l IH]; intros i H; [by exists []|].
  apply Forall_cons in H as [Hv H]. destruct v; try discriminate Hv.
  cbn [report_articles].
  destruct (report_article_indented env i d) as (lines & -> & Hl & Hn).
  destruct (IH (S i) H) as (more & -> & Hm & Hnm).
  exists (lines ++ more)%list. split; [done|]. split; [by apply Forall_app|].
  rewrite length_app. cbn [length]. lia.
Qed.

Lemma indented_not_success s : indented s -> s <> success_line.
Proof. intros [r [-> | ->]]; discriminate. Qed.

Lemma finished_is_dict l : Forall finished l -> Forall (fun v => is_dict v = true) l.
Proof. intros H. eapply Forall_impl; [exact H|]. by intros v (a & -> & _). Qed.

Lemma filter_Forall {A} (P : A -> Prop) (f : A -> bool) (l : list A) :
  Forall P l -> Forall P (List.filter f l).
Proof.
  induction 1 as [|x l Hx _ IH]; [constructor|]. cbn [List.filter].
  destruct (f x); [by constructor | done].
Qed.

(** The state a run ends in. *)
Lemma run_final_state env srcs :
  exists final wf,
    main_async env srcs = Some (final, wf)
    /\ Forall finished (articles final)
    /\ summaries final = List.filter error_free (articles final)
    /\ (error final = EmptyString <-> articles final <> []).
Proof.
  unfold main_async. cbv zeta. rewrite ainvoke_unfold.
  pose proof (through_summarize_initial env srcs) as (_ & Herr & _ & Hlen & Hfin & Hsum).
  pose proof (fetch_stage_articles env srcs (enter "fetch_articles" world0))
    as (_ & Hiff & _).
  cbv zeta in *.
  destruct (through_summarize env (initial_state srcs) world0) as [s3 w3].
  cbn [fst] in *.
  assert (Hiff3 : error s3 = EmptyString <-> articles s3 <> []).
  { rewrite Herr, Hiff. split; intros H Hn.
    - apply H. by apply length_zero_iff_nil; rewrite <- Hlen, Hn.
    - apply H. apply length_zero_iff_nil. by rewrite Hlen, Hn. }
  destruct (summaries s3) as [|x l] eqn:Es.
  - exists s3, w3. rewrite Es. done.
  - unfold send_notifications. rewrite Es.
    destruct (send_email_summary env (x :: l) _) as [sent w4].
    eexists _, _. split; [reflexivity|].
    cbn [error articles summaries set_email_sent]. rewrite Es. done.
Qed.

Lemma last_app_singleton {A} (l : list A) x : last (l ++ [x]) = Some x.
Proof. induction l as [|y [|z l] IH]; done. Qed.

(** X20. The report printed at the end of a run is never cut short by an
    exception. It holds the line "Workflow completed successfully." exactly
    when at least one article was fetched, even when no article could be
    summarized; and it ends with the warning that summaries were not mailed
    exactly when there are summaries and [email_sent] is false. *)
Theorem console_report_run env srcs :
  exists final wf lines,
    main_async env srcs = Some (final, wf)
    /\ console_report env final = (lines, None)
    /\ (success_line ∈ lines <-> articles final <> [])
    /\ (last lines = Some warning_line
        <-> summaries final <> [] /\ email_sent final = false).
Proof.
  destruct (run_final_state env srcs) as (final & wf & Hrun & Hfin & Hsum & Hiff).
  exists final, wf. unfold console_report, report_mail.
  assert (Hhead : forall rest : list string,
    (forall x, x ∈ rest -> x <> success_line) ->
    success_line ∈ (report_head final ++ rest)%list <-> articles final <> []).
  { intros rest Hrest. unfold report_head.
    rewrite <- Hiff, elem_of_app, !elem_of_cons, elem_of_nil.
    destruct (error final) as [|c e]; cbn [PyStr.is_empty negb].
    - split; [done|]. intros _. left. do 3 right. by left.
    - split; [|done].
      intros [[H | [H | [H | [H | []]]]] | H]; try discriminate H.
      by apply Hrest in H. }
  assert (Hdict : Forall (fun v => is_dict v = true) (summaries final)).
  { rewrite Hsum. apply filter_Forall, finished_is_dict, Hfin. }
  destruct (summaries final) as [|x l] eqn:Es.
  - eexists. split; [done|]. split; [reflexivity|]. split.
    + apply Hhead. intros y Hy.
      apply elem_of_app in Hy as [Hy | Hy].
      * apply list_elem_of_singleton in Hy as ->. discriminate.
      * destruct (email_sent final); [|by apply elem_of_nil in Hy].
        apply list_elem_of_singleton in Hy as ->. discriminate.
    + destruct (email_sent final).
      * rewrite !app_assoc, last_app_singleton. split; [discriminate | by intros [? ?]].
      * rewrite app_nil_r, last_app_singleton.
        split; [discriminate | by intros [? ?]].
  - destruct (report_articles_dicts env (x :: l) 1 Hdict) as (lines & -> & Hind & _).
    eexists. split; [done|]. split; [reflexivity|]. split.
    + apply Hhead. intros y Hy.
      apply elem_of_app in Hy as [Hy | Hy];
        [apply list_elem_of_singleton in Hy as ->; discriminate|].
      apply elem_of_app in Hy as [Hy | Hy].
      * apply indented_not_success. by eapply Forall_forall in Hind.
      * destruct (email_sent final);
          apply list_elem_of_singleton in Hy as ->; discriminate.
    + destruct (email_sent final); rewrite !app_assoc, last_app_singleton.
      * split; [discriminate | by intros [? ?]].
      * done.
Qed.

(* ===================================================================== *)
(** ** Further properties: renaming the source, extracting twice *)
(* ===================================================================== *)

Lemma rename_source_skip pre : forall label a rest,
  a !! "source" = Some (VStr label) ->
  Forall (fun p => exists u, p !! "url" = Some u /\ py_str_in label u = Ok false) pre ->
  rename_source (pre ++ rest) a = rename_source rest a.
Proof.
  induction pre as [|p pre IH]; intros label a rest Hl H; [done|].
  apply Forall_cons in H as [(u & Hu & Hin) H].
  cbn [app rename_source]. unfold dict_item. rewrite Hl, Hu. cbn [res_bind].
  rewrite Hin. cbn [res_bind]. by eapply IH.
Qed.

(** X21. The renaming loop of [batch_process_sources] changes nothing but
    the [source] field of an article: it returns the article as it is, or
    with [source] set to the [name] of one of the sources. The sources are
    tried in order and the first one whose URL contains the article's label
    decides: the article gets its [name], and the loop raises the key error
    when it has no [name]; when no URL contains the label the article is
    returned as it is. *)
Theorem rename_source_frame sl a :
  match rename_source sl a with
  | Ok a1 =>
      a1 = a
      \/ exists src name, src ∈ sl /\ src !! "name" = Some name
                          /\ a1 = <["source" := name]> a
  | Raise _ => True
  end
  /\ forall label,
       a !! "source" = Some (VStr label) ->
       (forall pre src url rest,
           sl = (pre ++ src :: rest)%list ->
           Forall (fun p => exists u, p !! "url" = Some u
                                      /\ py_str_in label u = Ok false) pre ->
           src !! "url" = Some url -> py_str_in label url = Ok true ->
           rename_source sl a
           = match src !! "name" with
             | Some name => Ok (<["source" := name]> a)
             | None => Raise (mkExn KeyError "'name'")
             end)
       /\ (Forall (fun p => exists u, p !! "url" = Some u
                                      /\ py_str_in label u = Ok false) sl ->
           rename_source sl a = Ok a).
Proof.
  split.
  - induction sl as [|src sl IH]; cbn [rename_source]; [by left|].
    destruct (dict_item a "source") as [label|e]; [|done]. cbn [res_bind].
    destruct (dict_item src "url") as [url|e]; [|done]. cbn [res_bind].
    destruct (match label with VStr l => py_str_in l url | _ => _ end) as [[|]|e];
      cbn [res_bind]; [| |done].
    + unfold dict_item. destruct (src !! "name") as [nm|] eqn:En; [|done].
      cbn [res_bind]. right. exists src, nm.
      split; [apply list_elem_of_here | done].
    + destruct (rename_source sl a) as [a1|e]; [|done].
      destruct IH as [-> | (s & nm & Hin & Hn & ->)]; [by left|].
      right. exists s, nm. split; [by apply list_elem_of_further | done].
  - intros label Hl. split.
    + intros pre src url rest -> Hpre Hu Hc.
      rewrite (rename_source_skip pre label a (src :: rest) Hl Hpre).
      cbn [rename_source]. unfold dict_item. rewrite Hl, Hu. cbn [res_bind].
      rewrite Hc. cbn [res_bind]. by destruct (src !! "name").
    + intros Hall.
      rewrite <- (app_nil_r sl).
      by rewrite (rename_source_skip sl label a [] Hl Hall).
Qed.

Lemma rename_source_frame_witness :
  rename_source
    [<["name" := VStr "other"]> (<["url" := VStr "https://other.org"]> ∅);
     <["url" := VStr "https://example.com"]> ∅]
    (new_article "https://example.com/news/a" "First headline" "page-a" "example.com")
  = Raise (mkExn KeyError "'name'").
Proof.
  refine (proj1 (proj2 (rename_source_frame _ _) "example.com" _)
            [<["name" := VStr "other"]> (<["url" := VStr "https://other.org"]> ∅)]
            (<["url" := VStr "https://example.com"]> ∅)
            (VStr "https://example.com") [] _ _ _ _).
  - reflexivity.
  - reflexivity.
  - repeat constructor. eexists. split; reflexivity.
  - reflexivity.
  - reflexivity.
Defined.

(** X22. Extracting an item that carries markup a second time, from the
    result of the first time, gives that result again and issues no
    request. *)
Theorem extract_twice env a w res w1 :
  truthy (dict_get a "html" VNone) = true ->
  extract_article_content env (VDict a) w = (Ok res, w1) ->
  w1 = w /\ forall w2, extract_article_content env (VDict res) w2 = (Ok res, w2).
Proof.
  intros Hh. unfold extract_article_content.
  rewrite (obtain_html_present env a w Hh).
  assert (Hkeep : forall k v w0,
            k <> "html" -> k <> "url" ->
            obtain_html env (<[k := v]> a) w0 = obtain_html env a w0).
  { intros k v w0 Hk Hk2. unfold obtain_html, dict_get, dict_item.
    by rewrite !lookup_insert_ne. }
  destruct (bs4_parse env (dict_get a "html" VNone)) as [soup|e] eqn:Ep.
  - cbv zeta.
    destruct (PyStr.is_empty (clean_content soup)
              || (String.length (clean_content soup) <? 50)%nat) eqn:Ec;
      intros [= <- <-]; (split; [done|]); intros w2;
      rewrite Hkeep, (obtain_html_present env a w2 Hh), Ep by done;
      cbv zeta; rewrite Ec; by rewrite insert_insert_eq.
  - intros [= <- <-]. split; [done|]. intros w2.
    rewrite Hkeep, (obtain_html_present env a w2 Hh), Ep by done.
    by rewrite insert_insert_eq.
Qed.

Lemma extract_twice_witness :
  extract_article_content demo_env
    (VDict (<["content" := VStr text50]> (<["html" := VStr "fifty"]> ∅))) world0
  = (Ok (<["content" := VStr text50]> (<["html" := VStr "fifty"]> ∅)), world0).
Proof.
  refine (proj2 (extract_twice demo_env (<["html" := VStr "fifty"]> ∅) world0
                   (<["content" := VStr text50]> (<["html" := VStr "fifty"]> ∅)) world0
                   _ _) world0); reflexivity.
Defined.
